(** * Verification of the storage-diagnostics core of PcInfo
    (src/src/storage_diagnostics.py).

    Python [str] values are modelled as lists of Unicode code points
    ([list N]).  The [re] module is modelled by a backtracking matcher whose
    results are listed in the priority order in which Python's [sre] engine
    tries them, so that the first result is the match Python returns. *)

From Stdlib Require Import NArith ZArith List String Ascii Bool Lia Sorted Permutation.
From stdpp Require Import base gmap.
Import ListNotations.

Local Open Scope N_scope.

(** ** Text *)

Abbreviation text := (list N).

(** ASCII string literal as a Python [str]. *)
Definition u (s : string) : text :=
  map (fun a => N.of_nat (nat_of_ascii a)) (list_ascii_of_string s).
Arguments u s%_string.

Definition nl : N := 10.        (* '\n' *)
Definition cr : N := 13.        (* '\r' *)
Definition sp : N := 32.        (* ' ' *)
Definition colon : N := 58.     (* ':' *)
Definition comma : N := 44.     (* ',' *)
Definition dash : N := 45.      (* '-' *)

Definition dashes (n : nat) : text := repeat dash n.

(** [str.isspace] (and [\s] of [re] on [str] patterns, which is the same set). *)
Definition is_space (c : N) : bool :=
  ((9 <=? c) && (c <=? 13)) || ((28 <=? c) && (c <=? 32)) ||
  (c =? 0x85) || (c =? 0xA0) || (c =? 0x1680) ||
  ((0x2000 <=? c) && (c <=? 0x200A)) || (c =? 0x2028) || (c =? 0x2029) ||
  (c =? 0x202F) || (c =? 0x205F) || (c =? 0x3000).

(** [\d] of [re] on [str] patterns: the Unicode decimal digits (category Nd),
    as runs (first code point, length). *)
Definition nd_ranges : list (N * N) :=
  [(0x30,10); (0x660,10); (0x6F0,10); (0x7C0,10); (0x966,10); (0x9E6,10);
   (0xA66,10); (0xAE6,10); (0xB66,10); (0xBE6,10); (0xC66,10); (0xCE6,10);
   (0xD66,10); (0xDE6,10); (0xE50,10); (0xED0,10); (0xF20,10); (0x1040,10);
   (0x1090,10); (0x17E0,10); (0x1810,10); (0x1946,10); (0x19D0,10);
   (0x1A80,10); (0x1A90,10); (0x1B50,10); (0x1BB0,10); (0x1C40,10);
   (0x1C50,10); (0xA620,10); (0xA8D0,10); (0xA900,10); (0xA9D0,10);
   (0xA9F0,10); (0xAA50,10); (0xABF0,10); (0xFF10,10); (0x104A0,10);
   (0x10D30,10); (0x11066,10); (0x110F0,10); (0x11136,10); (0x111D0,10);
   (0x112F0,10); (0x11450,10); (0x114D0,10); (0x11650,10); (0x116C0,10);
   (0x11730,10); (0x118E0,10); (0x11950,10); (0x11C50,10); (0x11D50,10);
   (0x11DA0,10); (0x16A60,10); (0x16AC0,10); (0x16B50,10); (0x1D7CE,50);
   (0x1E140,10); (0x1E2F0,10); (0x1E950,10); (0x1FBF0,10)].

Definition is_digit (c : N) : bool :=
  existsb (fun '(a, n) => (a <=? c) && (c <? a + n)) nd_ranges.

(** Case folding used by [re.IGNORECASE] for the literals of this module:
    two code points match case-insensitively iff they fold to the same
    value.  Besides A-Z, the only code points that match an ASCII letter
    are U+0130 and U+0131 (i), U+017F (s) and U+212A (k). *)
Definition ci_fold (c : N) : N :=
  if (65 <=? c) && (c <=? 90) then c + 32
  else if (c =? 0x130) || (c =? 0x131) then 0x69
  else if c =? 0x17F then 0x73
  else if c =? 0x212A then 0x6B
  else c.

(** [str.strip()], [str.lstrip()] and [str.rstrip()] without arguments. *)
Fixpoint lstrip (t : text) : text :=
  match t with
  | c :: t' => if is_space c then lstrip t' else t
  | [] => []
  end.

Definition rstrip (t : text) : text := rev (lstrip (rev t)).

Definition strip (t : text) : text := rstrip (lstrip t).

(** [s.replace(',', '')] *)
Definition remove_commas (t : text) : text :=
  filter (fun c => negb (c =? comma)) t.

(** ** The [re] engine *)

Record flags := { IGNORECASE : bool; DOTALL : bool }.

Definition noflags : flags := {| IGNORECASE := false; DOTALL := false |}.
Definition f_dotall : flags := {| IGNORECASE := false; DOTALL := true |}.
Definition f_icase : flags := {| IGNORECASE := true; DOTALL := false |}.

Inductive re : Type :=
| Empty                          (* the empty pattern *)
| Lit (c : N)                    (* a literal character *)
| Dot                            (* . *)
| Cls (p : N -> bool)            (* \s, \d, [...] *)
| Cat (r1 r2 : re)               (* r1 r2 *)
| Star (greedy : bool) (r : re)  (* r* (greedy) or r*? (lazy) *)
| Group (i : nat) (r : re).      (* (r), capturing group number i *)

Definition Plus (r : re) : re := Cat r (Star true r).       (* r+ *)
Definition PlusLazy (r : re) : re := Cat r (Star false r).  (* r+? *)

Definition seq_re (rs : list re) : re := fold_right Cat Empty rs.

Definition lits (t : text) : re := seq_re (map Lit t).

Definition ws : re := Cls is_space.       (* \s *)
Definition digit : re := Cls is_digit.    (* \d *)

Abbreviation caps := (list (nat * text)).

Definition char_ok (fl : flags) (r : re) (c : N) : bool :=
  match r with
  | Lit l => if IGNORECASE fl then ci_fold c =? ci_fold l else c =? l
  | Dot => DOTALL fl || negb (c =? nl)
  | Cls p => p c
  | _ => false
  end.

(** The matches of [r*] (greedy when [g]) at the start of [s], given the
    matches [step] of [r]; an iteration that consumes nothing is dropped, so
    [n] iterations always suffice when [n] exceeds the length of [s]. *)
Fixpoint star_with (step : text -> list (caps * text)) (g : bool) (n : nat) (s : text)
  : list (caps * text) :=
  match n with
  | O => [([], s)]
  | S n' =>
      let more :=
        flat_map (fun '(c1, s1) =>
          if (length s1 <? length s)%nat
          then map (fun '(c2, s2) => (c1 ++ c2, s2)) (star_with step g n' s1)
          else []) (step s) in
      if g then more ++ [([], s)] else ([], s) :: more
  end.

(** All matches of [r] at the start of [s], in the order the backtracking
    engine tries them: each is the captures made and the text left over. *)
Fixpoint m (fl : flags) (r : re) (s : text) {struct r} : list (caps * text) :=
  match r with
  | Empty => [([], s)]
  | Lit _ | Dot | Cls _ =>
      match s with
      | c :: s' => if char_ok fl r c then [([], s')] else []
      | [] => []
      end
  | Cat r1 r2 =>
      flat_map (fun '(c1, s1) =>
        map (fun '(c2, s2) => (c1 ++ c2, s2)) (m fl r2 s1)) (m fl r1 s)
  | Star g r0 => star_with (m fl r0) g (S (length s)) s
  | Group i r0 =>
      map (fun '(c, s') => (c ++ [(i, firstn (length s - length s') s)], s'))
        (m fl r0 s)
  end.

(** [re.search]: the first position where the pattern matches, and the first
    match there: the captures, the text from the start of the match and the
    text after it. *)
Fixpoint search (fl : flags) (r : re) (s : text) : option (caps * text * text) :=
  match m fl r s with
  | (c, s') :: _ => Some (c, s, s')
  | [] => match s with [] => None | _ :: t => search fl r t end
  end.

(** [match.group(i)] ('' when the group did not take part). *)
Definition group (c : caps) (i : nat) : text :=
  fold_left (fun acc '(j, t) => if Nat.eqb j i then t else acc) c [].

(** [re.findall]: successive non-overlapping matches, each given by its
    captures and the whole matched text.  (The patterns given to [findall]
    in this module never match the empty string.) *)
Fixpoint findall_aux (fl : flags) (r : re) (n : nat) (s : text)
  : list (caps * text) :=
  match n with
  | O => []
  | S n' =>
      match search fl r s with
      | None => []
      | Some (c, st, rest) =>
          (c, firstn (length st - length rest) st) ::
          findall_aux fl r n' (if (length rest <? length st)%nat then rest else tl rest)
      end
  end.

Definition findall (fl : flags) (r : re) (s : text) : list (caps * text) :=
  findall_aux fl r (S (length s)) s.

(** ** Compiled patterns of storage_diagnostics.py *)

Definition u_disk : text := [0x30C7; 0x30A3; 0x30B9; 0x30AF].  (* ディスク *)
Definition u_hours : text := [0x6642; 0x9593].                 (* 時間 *)
Definition u_times : text := [0x56DE].                         (* 回 *)

(** [-- Disk List ---...---\n(.*?)\n---...---], [re.DOTALL] *)
Definition DISK_LIST_PATTERN : re :=
  seq_re [lits (u "-- Disk List " ++ dashes 63 ++ [nl]);
          Group 1 (Star false Dot);
          lits ([nl] ++ dashes 76)].

(** [\((\d+)\)\s+(.+)] *)
Definition DISK_ENTRY_PATTERN : re :=
  seq_re [Lit 40; Group 1 (Plus digit); Lit 41; Plus ws; Group 2 (Plus Dot)].

(** [---...---\n\s*\(\d+\)\s+.+?\n---...---\n(.*?)\n-- S\.M\.A\.R\.T\.],
    [re.DOTALL] *)
Definition DISK_SECTION_PATTERN : re :=
  seq_re [lits (dashes 76 ++ [nl]); Star true ws; Lit 40; Plus digit; Lit 41;
          Plus ws; PlusLazy Dot; lits ([nl] ++ dashes 76 ++ [nl]);
          Group 1 (Star false Dot); lits ([nl] ++ u "-- S.M.A.R.T.")].

(** [ディスク\s+\d+:\n(?:  .+\n)+], [re.MULTILINE] (no [^] or [$] in it) *)
Definition INFO_LINE : re := seq_re [lits (u "  "); Plus Dot; Lit nl].
Definition DISK_INFO_PATTERN : re :=
  seq_re [lits u_disk; Plus ws; Plus digit; lits [colon; nl]; Plus INFO_LINE].

(** The patterns given to [extract_field] (searched with [re.IGNORECASE]):
    [<label>\s*:\s*(<capture>)<tail>]. *)
Definition field_pattern (label : text) (capture tail : re) : re :=
  seq_re [lits label; Star true ws; Lit colon; Star true ws;
          Group 1 capture; tail].

Definition MODEL_RE : re := field_pattern (u "Model") (Plus Dot) Empty.
Definition DISK_SIZE_RE : re := field_pattern (u "Disk Size") (Plus Dot) Empty.
Definition INTERFACE_RE : re := field_pattern (u "Interface") (Plus Dot) Empty.
Definition HOURS_RE : re :=
  field_pattern (u "Power On Hours") (Plus digit) (Cat (Star true ws) (lits u_hours)).
Definition COUNT_RE : re :=
  field_pattern (u "Power On Count") (Plus digit) (Cat (Star true ws) (lits u_times)).
(** [[\d,\.]] *)
Definition writes_char (c : N) : bool := is_digit c || (c =? comma) || (c =? 46).
Definition WRITES_RE : re :=
  field_pattern (u "Host Writes") (Plus (Cls writes_char))
    (Cat (Star true ws) (lits (u "GB"))).
Definition HEALTH_RE : re := field_pattern (u "Health Status") (Plus Dot) Empty.

(** ** Report Grammar: [get_storage_log] and [extract_field] *)

Definition NA : text := u "N/A".

(** A record is the Python dict, as its (ordered) list of items. *)
Abbreviation record := (list (text * text)).

Definition extract_field (t : text) (pattern : re) : text :=
  match search f_icase pattern t with
  | Some (c, _, _) => strip (group c 1)
  | None => NA
  end.

Definition L_MODEL := u "Model".
Definition L_SIZE := u "Disk Size".
Definition L_IFACE := u "Interface".
Definition L_HOURS := u "Power On Hours".
Definition L_COUNT := u "Power On Count".
Definition L_WRITES := u "Host Writes".
Definition L_HEALTH := u "Health Status".

Definition field_labels : list text :=
  [L_MODEL; L_SIZE; L_IFACE; L_HOURS; L_COUNT; L_WRITES; L_HEALTH].

(** The dict built for one detail section (lines 138-146). *)
Definition disk_info (section : text) : record :=
  [(L_MODEL, extract_field section MODEL_RE);
   (L_SIZE, extract_field section DISK_SIZE_RE);
   (L_IFACE, extract_field section INTERFACE_RE);
   (L_HOURS, extract_field section HOURS_RE);
   (L_COUNT, extract_field section COUNT_RE);
   (L_WRITES, match extract_field section WRITES_RE with
              | [] => NA
              | _ => remove_commas (extract_field section WRITES_RE)
              end);
   (L_HEALTH, extract_field section HEALTH_RE)].

(** The loop over the detail sections (lines 129-156). *)
Definition disks_of_sections (sections : list text) : list record :=
  flat_map (fun section =>
    let section := strip section in
    match section with [] => [] | _ => [disk_info section] end) sections.

Definition get_storage_log (log_text : text) : list record :=
  match search f_dotall DISK_LIST_PATTERN log_text with
  | None => []
  | Some (c, _, _) =>
      let disk_list_text := group c 1 in
      match findall noflags DISK_ENTRY_PATTERN disk_list_text with
      | [] => []
      | _ =>
          match map (fun '(c, _) => group c 1)
                    (findall f_dotall DISK_SECTION_PATTERN log_text) with
          | [] => []
          | disk_sections => disks_of_sections disk_sections
          end
      end
  end.

(** ** Persisted format: [save_storage_info] and [get_storage_info] *)

(** [str(n)] for a natural number. *)
Fixpoint dec_aux (fuel : nat) (n : nat) : text :=
  match fuel with
  | O => []
  | S f =>
      (if Nat.eqb (n / 10) 0 then [] else dec_aux f (n / 10)) ++
      [48 + N.of_nat (n mod 10)]
  end.

Definition dec (n : nat) : text := dec_aux (S n) n.

(** [dict[key]]: [None] is the [KeyError]. *)
Fixpoint dict_get (d : record) (k : text) : option text :=
  match d with
  | [] => None
  | (k', v) :: d' => if decide (k = k') then Some v else dict_get d' k
  end.

(** [dict[key] = value]: an existing key keeps its position. *)
Fixpoint dict_set (d : record) (k v : text) : record :=
  match d with
  | [] => [(k, v)]
  | (k', v') :: d' =>
      if decide (k = k') then (k, v) :: d' else (k', v') :: dict_set d' k v
  end.

(** The [f.write] calls for one disk (lines 187-194): the header, then one
    line per field; a field's line needs the dict lookup [disk[label]]. *)
Definition disk_block_writes (idx : nat) (disk : record) : list (option text) :=
  Some (u_disk ++ u " " ++ dec idx ++ [colon; nl]) ::
  map (fun (lf : text * bool) =>
         let '(label, final) := lf in
         match dict_get disk label with
         | Some v =>
             Some (u "  " ++ label ++ [colon; sp] ++ v ++ [nl] ++
                   (if final then [nl] else []))
         | None => None
         end)
      [(L_MODEL, false); (L_SIZE, false); (L_IFACE, false); (L_HOURS, false);
       (L_COUNT, false); (L_WRITES, false); (L_HEALTH, true)].

(** All the [f.write] arguments of [save_storage_info], in order. *)
Fixpoint report_writes (idx : nat) (disks : list record) : list (option text) :=
  match disks with
  | [] => []
  | d :: ds => disk_block_writes idx d ++ report_writes (S idx) ds
  end.

(** [s.split('\n')] *)
Fixpoint split_nl (t : text) : list text :=
  match t with
  | [] => [[]]
  | c :: t' =>
      if c =? nl then [] :: split_nl t'
      else match split_nl t' with
           | l :: ls => (c :: l) :: ls
           | [] => [[c]]
           end
  end.

(** [line.split(':', 1)] for a line that contains ':' *)
Fixpoint split_colon (t : text) : text * text :=
  match t with
  | [] => ([], [])
  | c :: t' =>
      if c =? colon then ([], t')
      else let '(k, v) := split_colon t' in (c :: k, v)
  end.

Fixpoint starts_with (p t : text) : bool :=
  match p, t with
  | [], _ => true
  | a :: p', b :: t' => (a =? b) && starts_with p' t'
  | _ :: _, [] => false
  end.

(** The body of the loop over one matched block (lines 354-363). *)
Definition parse_block (disk : text) : record :=
  fold_left (fun disk_dict line =>
      if existsb (fun c => c =? colon) line then
        let '(key, value) := split_colon (strip line) in
        if starts_with u_disk (strip key) then disk_dict
        else dict_set disk_dict (strip key) (strip value)
      else disk_dict)
    (split_nl (strip disk)) [].

(** The parsing part of [get_storage_info] (lines 350-363). *)
Definition parse_storage_info (content : text) : list record :=
  map (fun '(_, disk) => parse_block disk) (findall noflags DISK_INFO_PATTERN content).

(** ** Text-mode files

    Files are opened in text mode with [encoding='utf-8'].  Writing turns
    each '\n' into the Windows line separator "\r\n"; reading uses universal
    newlines: "\r\n" and a lone '\r' both become '\n'.  UTF-8 encoding
    fails on a lone surrogate code point. *)

Definition write_newlines (t : text) : text :=
  flat_map (fun c => if c =? nl then [cr; nl] else [c]) t.

Fixpoint read_newlines (t : text) : text :=
  match t with
  | [] => []
  | c :: t' =>
      if c =? cr then
        match t' with
        | d :: t'' => if d =? nl then nl :: read_newlines t'' else nl :: read_newlines t'
        | [] => [nl]
        end
      else c :: read_newlines t'
  end.

Definition is_surrogate (c : N) : bool := (0xD800 <=? c) && (c <=? 0xDFFF).

(** ** The machine: files, processes, clock *)

(** The bytes of a file: UTF-8 text (as code points, newlines as stored),
    or bytes that are not valid UTF-8. *)
Inductive fcontent := Utf8 (t : text) | NotUtf8.

Inductive event :=
| EvLaunch (file params : text)   (* ShellExecuteW(None, "runas", file, params, ...) *)
| EvProcessIter                   (* psutil.process_iter(['name']) *)
| EvSleep (us : Z).               (* time.sleep, in microseconds *)

Record world := mkWorld {
  base : text;                       (* get_base_path() *)
  files : gmap text fcontent;        (* regular files, by path *)
  dirs : gset text;                  (* directories, by path *)
  readonly : gset text;              (* paths that cannot be created: open(p, 'w')
                                        and os.mkdir(p) raise there *)
  undeletable : gset text;           (* paths where os.remove raises *)
  mtime : text -> Z;                 (* os.path.getmtime *)
  shell_result : Z;                  (* the value ShellExecuteW returns *)
  tool_output : option fcontent;     (* what DiskInfo32.exe /CopyExit writes to DiskInfo.txt *)
  process_names : nat -> list text;  (* names listed by the k-th process_iter *)
  clock : nat -> Z;                  (* the k-th reading of time.time(), microseconds *)
  now_stamp : text;                  (* datetime.now().strftime("%Y%m%d_%H%M%S") *)
  polls : nat;                       (* process_iter calls made so far *)
  ticks : nat;                       (* time.time() calls made so far *)
  trace : list event                 (* launches, process polls and sleeps, in order *)
}.

Definition set_files (fs : gmap text fcontent) (w : world) : world :=
  mkWorld (base w) fs (dirs w) (readonly w) (undeletable w) (mtime w)
    (shell_result w) (tool_output w) (process_names w) (clock w) (now_stamp w)
    (polls w) (ticks w) (trace w).

Definition set_dirs (ds : gset text) (w : world) : world :=
  mkWorld (base w) (files w) ds (readonly w) (undeletable w) (mtime w)
    (shell_result w) (tool_output w) (process_names w) (clock w) (now_stamp w)
    (polls w) (ticks w) (trace w).

Definition set_counters (p t : nat) (ev : list event) (w : world) : world :=
  mkWorld (base w) (files w) (dirs w) (readonly w) (undeletable w) (mtime w)
    (shell_result w) (tool_output w) (process_names w) (clock w) (now_stamp w)
    p t ev.

Inductive exn := OSError | UnicodeDecodeError | UnicodeEncodeError | KeyError.

(** Outcome of running a piece of code: a value, an exception, or still
    running when the given number of loop iterations was used up. *)
Inductive res (A : Type) := Ok (a : A) | Raise (e : exn) | Pending.
Arguments Ok {A} a.
Arguments Raise {A} e.
Arguments Pending {A}.

Definition M (A : Type) : Type := world -> world * res A.

Definition ret {A} (a : A) : M A := fun w => (w, Ok a).
Definition raise {A} (e : exn) : M A := fun w => (w, Raise e).
Definition bind {A B} (c : M A) (k : A -> M B) : M B :=
  fun w => match c w with
           | (w', Ok a) => k a w'
           | (w', Raise e) => (w', Raise e)
           | (w', Pending) => (w', Pending)
           end.
(** [try: c  except Exception: h] *)
Definition try_except {A} (c : M A) (h : exn -> M A) : M A :=
  fun w => match c w with
           | (w', Raise e) => h e w'
           | r => r
           end.

Notation "'let*' x ':=' c 'in' k" := (bind c (fun x => k))
  (at level 200, x name, c at level 100, k at level 200).

Definition get_world : M world := fun w => (w, Ok w).
Definition modify (f : world -> world) : M unit := fun w => (f w, Ok tt).

(** [os.path.join] (ntpath) for a relative second component. *)
Definition is_sep (c : N) : bool := (c =? 92) || (c =? 47).
Definition join (a b : text) : text :=
  match rev a with
  | [] => b
  | c :: _ => if is_sep c then a ++ b else a ++ [92] ++ b
  end.

Definition path_exists (p : text) : M bool :=
  fun w => (w, Ok (bool_decide (is_Some (files w !! p)) || bool_decide (p ∈ dirs w))).

(** [os.path.getsize(p) == 0] (a directory reports size 0 on Windows). *)
Definition size_is_zero (p : text) : M bool :=
  fun w => match files w !! p with
           | Some (Utf8 []) => (w, Ok true)
           | Some _ => (w, Ok false)
           | None => if bool_decide (p ∈ dirs w) then (w, Ok true) else (w, Raise OSError)
           end.

(** [os.makedirs(p, exist_ok=True)] (the parent exists): an existing
    directory is accepted; a regular file at [p] raises FileExistsError
    (exist_ok covers directories only); a missing directory that cannot be
    created (no permission, read-only volume) raises the OSError of
    [os.mkdir]; otherwise the directory is created. *)
Definition makedirs (p : text) : M unit :=
  fun w => if bool_decide (is_Some (files w !! p)) ||
              (negb (bool_decide (p ∈ dirs w)) && bool_decide (p ∈ readonly w))
           then (w, Raise OSError)
           else (set_dirs ({[p]} ∪ dirs w) w, Ok tt).

(** [open(p, 'w', encoding='utf-8')]: creates or truncates the file. *)
Definition open_w (p : text) : M unit :=
  fun w => if bool_decide (p ∈ readonly w) || bool_decide (p ∈ dirs w)
           then (w, Raise OSError)
           else (set_files (<[p := Utf8 []]> (files w)) w, Ok tt).

(** [f.write(t)] on a file opened by [open_w]. *)
Definition fwrite (p : text) (t : text) : M unit :=
  fun w => if existsb is_surrogate t then (w, Raise UnicodeEncodeError)
           else match files w !! p with
                | Some (Utf8 old) =>
                    (set_files (<[p := Utf8 (old ++ write_newlines t)]> (files w)) w, Ok tt)
                | _ => (w, Raise OSError)
                end.

(** [open(p, 'r', encoding='utf-8')]: fails unless [p] is a regular file. *)
Definition open_r (p : text) : M unit :=
  fun w => if bool_decide (is_Some (files w !! p)) then (w, Ok tt) else (w, Raise OSError).

(** [f.read()] on a file opened by [open_r]. *)
Definition fread (p : text) : M text :=
  fun w => match files w !! p with
           | Some (Utf8 t) => (w, Ok (read_newlines t))
           | Some NotUtf8 => (w, Raise UnicodeDecodeError)
           | None => (w, Raise OSError)
           end.

(** [os.remove(p)] *)
Definition remove (p : text) : M unit :=
  fun w => if bool_decide (p ∈ undeletable w) || negb (bool_decide (is_Some (files w !! p)))
           then (w, Raise OSError)
           else (set_files (delete p (files w)) w, Ok tt).

(** [time.time()] *)
Definition time_now : M Z :=
  fun w => (set_counters (polls w) (S (ticks w)) (trace w) w, Ok (clock w (ticks w))).

(** [psutil.process_iter(['name'])]: the names of the running processes. *)
Definition process_iter : M (list text) :=
  fun w => (set_counters (S (polls w)) (ticks w) (trace w ++ [EvProcessIter]) w,
            Ok (process_names w (polls w))).

(** [time.sleep(s)] *)
Definition sleep (us : Z) : M unit :=
  fun w => (set_counters (polls w) (ticks w) (trace w ++ [EvSleep us]) w, Ok tt).

(** ** Diagnostic Invoker *)

Fixpoint drop_while (p : N -> bool) (t : text) : text :=
  match t with
  | c :: t' => if p c then drop_while p t' else t
  | [] => []
  end.

(** [os.path.dirname] for a path with a directory part. *)
Definition dirname (p : text) : text :=
  rev (drop_while is_sep (drop_while (fun c => negb (is_sep c)) (rev p))).

(** [ShellExecuteW(None, "runas", file, params, dirname(file), 0)]: returns
    the code of [ShellExecuteW]; when it succeeds (> 32) the tool runs and
    writes its report to DiskInfo.txt in its directory. *)
Definition shell_execute (file params : text) : M Z :=
  fun w =>
    let w1 := set_counters (polls w) (ticks w) (trace w ++ [EvLaunch file params]) w in
    if (32 <? shell_result w)%Z then
      match tool_output w with
      | Some c => (set_files (<[join (dirname file) (u "DiskInfo.txt") := c]> (files w1)) w1,
                   Ok (shell_result w))
      | None => (w1, Ok (shell_result w))
      end
    else (w1, Ok (shell_result w)).

Definition run_CrystalDiskInfo (executable_path parameters : text) : M bool :=
  try_except
    (let* result := shell_execute executable_path parameters in
     if (result <=? 32)%Z then ret false else ret true)
    (fun _ => ret false).

(** [proc.info['name'].lower() == 'diskinfo32.exe'].  Only the ASCII letters
    and U+212A (KELVIN SIGN, lowercased to 'k') lowercase to ASCII letters;
    the lowercase of any other code point is never an ASCII character, so
    leaving them unchanged decides the comparison exactly. *)
Definition lower_char (c : N) : N :=
  if (65 <=? c) && (c <=? 90) then c + 32 else if c =? 0x212A then 0x6B else c.

Definition is_tool_process (name : text) : bool :=
  bool_decide (map lower_char name = u "diskinfo32.exe").

Definition timeout_us : Z := 10000000.   (* timeout = 10 *)
Definition poll_interval_us : Z := 500000. (* time.sleep(0.5) *)

(** The wait loop of lines 247-256, run for at most [fuel] iterations. *)
Fixpoint wait_loop (fuel : nat) (start_time : Z) : M bool :=
  match fuel with
  | O => fun w => (w, Pending)
  | S f =>
      let* names := process_iter in
      if negb (existsb is_tool_process names) then ret true
      else
        let* t := time_now in
        if (t - start_time >? timeout_us)%Z then ret false
        else
          let* _ := sleep poll_interval_us in
          wait_loop f start_time
  end.

(** What the [i]-th iteration of the wait loop, started in [w], sees: a
    DiskInfo32.exe process among the listed ones, and more than the timeout
    elapsed since [start_time] on its clock reading. *)
Definition tool_seen (w : world) (i : nat) : bool :=
  existsb is_tool_process (process_names w (polls w + i)).
Definition past_timeout (w : world) (start_time : Z) (i : nat) : bool :=
  (clock w (ticks w + i) - start_time >? timeout_us)%Z.

(** Before the decisive poll every poll saw the tool within the timeout. *)
Definition still_waiting (w : world) (start_time : Z) (i : nat) : Prop :=
  forall j, (j < i)%nat -> tool_seen w j = true /\ past_timeout w start_time j = false.

(** The events of a wait that ends at its [i]-th poll: a poll, then a
    0.5 s sleep, [i] times, then the last poll. *)
Definition poll_events (i : nat) : list event :=
  concat (repeat [EvProcessIter; EvSleep poll_interval_us] i) ++ [EvProcessIter].

Definition crystal_dir (b : text) : text := join b (u "CrystalDiskInfo").
Definition executable_path (b : text) : text := join (crystal_dir b) (u "DiskInfo32.exe").
Definition log_file_default (b : text) : text := join (crystal_dir b) (u "DiskInfo.txt").
Definition log_folder (b : text) : text := join b (u "log").
Definition storage_health_log (b stamp : text) : text :=
  join (log_folder b) (u "storage_health_log_" ++ stamp ++ u ".txt").
Definition storage_info_log (b stamp : text) : text :=
  join (log_folder b) (u "storage_info_log_" ++ stamp ++ u ".txt").

Fixpoint write_all (p : text) (ws : list (option text)) : M unit :=
  match ws with
  | [] => ret tt
  | None :: _ => raise KeyError
  | Some t :: ws' => let* _ := fwrite p t in write_all p ws'
  end.

Definition save_storage_info (disks : list record) (parsed_log_file_path : text) : M unit :=
  try_except
    (let* _ := open_w parsed_log_file_path in
     write_all parsed_log_file_path (report_writes 1 disks))
    (fun _ => ret tt).

(** The copy of lines 273-280: [Some content] on success. *)
Definition copy_log (src dst : text) : M (option text) :=
  try_except
    (let* _ := open_r src in
     let* _ := open_w dst in
     let* content := fread src in
     let* _ := fwrite dst content in
     ret (Some content))
    (fun _ => ret None).

(** Lines 208-280 of [get_CrystalDiskInfo_log]: [None] where the source
    returns [False], [Some content] once the raw log has been copied. *)
Definition collect_raw_log (fuel : nat) : M (option text) :=
  let* w0 := get_world in
  let b := base w0 in
  let exe := executable_path b in
  let* ex := path_exists exe in
  if negb ex then ret None else
  let raw := log_file_default b in
  let stamp := now_stamp w0 in
  let* _ := makedirs (log_folder b) in
  let health := storage_health_log b stamp in
  let* launched := run_CrystalDiskInfo exe (u "/CopyExit") in
  if negb launched then ret None else
  let* start_time := time_now in
  let* finished := wait_loop fuel start_time in
  if negb finished then ret None else
  let* ex := path_exists raw in
  if negb ex then ret None else
  let* empty := size_is_zero raw in
  if empty then ret None else
  copy_log raw health.

(** Lines 282-300 of [get_CrystalDiskInfo_log]. *)
Definition store_report (raw info content : text) : M bool :=
  let disks := get_storage_log content in
  let* _ := match disks with
            | [] => ret tt
            | _ => save_storage_info disks info
            end in
  let* _ := try_except (remove raw) (fun _ => ret tt) in
  ret true.

Definition get_CrystalDiskInfo_log (fuel : nat) : M bool :=
  let* w0 := get_world in
  let* copied := collect_raw_log fuel in
  match copied with
  | None => ret false
  | Some content =>
      store_report (log_file_default (base w0))
        (storage_info_log (base w0) (now_stamp w0)) content
  end.

(** ** Catalog Query: [search_storage_log] and [get_storage_info] *)












Definition get_storage_info (log_filename : text) : M (option (list record)) :=
  let* w := get_world in
  let log_file_path := join (log_folder (base w)) log_filename in
  let* ex := path_exists log_file_path in
  if negb ex then ret None
  else try_except
         (let* _ := open_r log_file_path in
          let* content := fread log_file_path in
          ret (Some (parse_storage_info content)))
         (fun _ => ret None).

(** ** Concrete inputs *)

Fixpoint join_lines (ls : list text) : text :=
  match ls with
  | [] => []
  | [l] => l
  | l :: r => l ++ [nl] ++ join_lines r
  end.

(** A CrystalDiskInfo report with one disk whose detail block holds the
    lines [field_lines]. *)
Definition report_with (field_lines : list text) : text :=
  join_lines ([u "-- Disk List " ++ dashes 63;
               u " (1) Samsung SSD 860 : 500.1 GB";
               dashes 76;
               u " (1) Samsung SSD 860";
               dashes 76] ++
              field_lines ++
              [[];
               u "-- S.M.A.R.T. " ++ dashes 60;
               u "ID Cur Wor Thr RawValues(6) Attribute Name"]).

(** The seven field lines of the detail block, the power-on-hours line
    being [hours_line]. *)
Definition std_fields (hours_line : text) : list text :=
  [u "           Model : Samsung SSD 860";
   u "       Disk Size : 500.1 GB";
   u "       Interface : Serial ATA";
   hours_line;
   u "  Power On Count : 123 " ++ u_times;
   u "     Host Writes : 1,234 GB";
   u "   Health Status : Good (99 %)"].

Definition sample_log (hours_line : text) : text := report_with (std_fields hours_line).

Definition plain_hours_line : text := u "  Power On Hours : 8760 " ++ u_hours.

(** The values parsed from [sample_log plain_hours_line], field by field. *)
Definition std_values : list text :=
  [u "Samsung SSD 860"; u "500.1 GB"; u "Serial ATA"; u "8760"; u "123";
   u "1234"; u "Good (99 %)"].

Definition sample_base : text := u "C:\app".
Definition sample_stamp : text := u "20261018_120000".

(** A machine where DiskInfo32.exe is installed under [sample_base], the
    shell launch succeeds, the tool writes [out] and has exited by the
    second poll, and the paths in [ro] cannot be opened for writing. *)
Definition sample_world (out : fcontent) (ro : gset text) : world :=
  mkWorld sample_base {[ executable_path sample_base := Utf8 [] ]} ∅ ro ∅
    (fun _ => 0%Z) 42%Z (Some out)
    (fun k => if Nat.eqb k 0 then [u "DiskInfo32.exe"; u "explorer.exe"]
              else [u "explorer.exe"])
    (fun k => Z.of_nat k * 400000)%Z
    sample_stamp 0 0 [].

(** The same machine without DiskInfo32.exe. *)
Definition no_tool_world : world := set_files ∅ (sample_world NotUtf8 ∅).

(** The sample report with one field line replaced or dropped. *)
Definition comma_writes_log : text :=
  report_with (<[5%nat := u "     Host Writes : , GB"]> (std_fields plain_hours_line)).
Definition cr_model_log : text :=
  report_with (<[0%nat := u "           Model : A" ++ [cr] ++ u "B"]> (std_fields plain_hours_line)).

(** ** Notions used in the proofs *)

Definition single (r : re) : bool :=
  match r with Lit _ | Dot | Cls _ => true | _ => false end.

Fixpoint has_group (r : re) : bool :=
  match r with
  | Group _ _ => true
  | Cat r1 r2 => has_group r1 || has_group r2
  | Star _ r0 => has_group r0
  | _ => false
  end.

Fixpoint star1 (fl : flags) (r0 : re) (s : text) : list (caps * text) :=
  match s with
  | c :: s' => if char_ok fl r0 c then star1 fl r0 s' ++ [([], s)] else [([], s)]
  | [] => [([], [])]
  end.

Fixpoint lits_match (fl : flags) (t s : text) : option text :=
  match t, s with
  | [], _ => Some s
  | a :: t', c :: s' => if char_ok fl (Lit a) c then lits_match fl t' s' else None
  | _ :: _, [] => None
  end.

Definition suffix_of (s' s : text) : Prop := exists p, s = p ++ s'.

Definition hd_ok (t : text) : bool :=
  match t with c :: _ => negb (is_space c) | [] => true end.
Definition last_ok (t : text) : bool := hd_ok (rev t).

Definition space_chars : list N :=
  [9; 10; 11; 12; 13; 28; 29; 30; 31; 32; 0x85; 0xA0; 0x1680;
   0x2000; 0x2001; 0x2002; 0x2003; 0x2004; 0x2005; 0x2006; 0x2007; 0x2008;
   0x2009; 0x200A; 0x2028; 0x2029; 0x202F; 0x205F; 0x3000].

Definition hdr (idx : nat) : text := u_disk ++ u " " ++ dec idx ++ [colon; nl].
Definition kv_line (k v : text) : text := u "  " ++ k ++ [colon; sp] ++ v ++ [nl].
Definition record_text (idx : nat) (d : record) : text :=
  hdr idx ++ concat (map (fun '(k, v) => kv_line k v) d).
Fixpoint report_text (idx : nat) (ds : list record) : text :=
  match ds with
  | [] => []
  | d :: ds' => record_text idx d ++ [nl] ++ report_text (S idx) ds'
  end.
Fixpoint block_texts (idx : nat) (ds : list record) : list text :=
  match ds with
  | [] => []
  | d :: ds' => record_text idx d :: block_texts (S idx) ds'
  end.

Definition no_nl (t : text) : bool := forallb (fun c => negb (c =? nl)) t.

Definition info_lines (xs : list text) : text :=
  concat (map (fun x => u "  " ++ x ++ [nl]) xs).

Definition good_record (d : record) : Prop :=
  d <> [] /\ Forall (fun '(k, v) => no_nl k = true /\ no_nl v = true) d.

Definition parse_line (disk_dict : record) (line : text) : record :=
  if existsb (fun c => c =? colon) line then
    let '(key, value) := split_colon (strip line) in
    if starts_with u_disk (strip key) then disk_dict
    else dict_set disk_dict (strip key) (strip value)
  else disk_dict.

Definition not_colon (c : N) : bool := negb (c =? colon).

Definition label_ok (k : text) : bool :=
  negb (Nat.eqb (length k) 0) && hd_ok k && last_ok k && forallb not_colon k && no_nl k &&
  negb (starts_with u_disk k).

Definition kv_body (k v : text) : text := u "  " ++ k ++ [colon; sp] ++ v.
Definition body (d : record) : text := concat (map (fun '(k, v) => nl :: kv_body k v) d).
Definition hdr0 (idx : nat) : text := u_disk ++ u " " ++ dec idx ++ [colon].

Definition std7 (v1 v2 v3 v4 v5 v6 v7 : text) : record :=
  [(L_MODEL, v1); (L_SIZE, v2); (L_IFACE, v3); (L_HOURS, v4); (L_COUNT, v5);
   (L_WRITES, v6); (L_HEALTH, v7)].

Definition ok_char (c : N) : bool := negb (c =? cr) && negb (is_surrogate c).

Definition good_value (v : text) : Prop :=
  strip v = v /\ no_nl v = true /\ forallb ok_char v = true.

Definition std_shape (d : record) : Prop :=
  exists v1 v2 v3 v4 v5 v6 v7, d = std7 v1 v2 v3 v4 v5 v6 v7.

Definition std_ok (d : record) : Prop :=
  exists v1 v2 v3 v4 v5 v6 v7, d = std7 v1 v2 v3 v4 v5 v6 v7 /\
    Forall good_value [v1; v2; v3; v4; v5; v6; v7] /\ v7 <> [].

(** ** Notions for the detail blocks *)














(** ** Notions for the properties of the collection run and the catalog *)

(** [os.path.exists(executable_path)]. *)
Definition exe_present (w : world) : Prop :=
  is_Some (files w !! executable_path (base w)) \/ executable_path (base w) ∈ dirs w.

(** Code that keeps the base path and the set of undeletable paths, and
    deletes no file. *)
Definition keeps {A} (c : M A) : Prop := forall w,
  base (fst (c w)) = base w /\ undeletable (fst (c w)) = undeletable w /\
  (forall p, is_Some (files w !! p) -> is_Some (files (fst (c w)) !! p)).

(** A key-value pair of a record read back by [get_storage_info]: key and
    value stripped and on one line, the key not starting with "ディスク". *)
Definition clean_entry (kv : text * text) : Prop :=
  strip kv.1 = kv.1 /\ strip kv.2 = kv.2 /\ starts_with u_disk kv.1 = false /\
  ~ In nl kv.1 /\ ~ In nl kv.2.

(** ======================================================================= *)
(** * Theorems *)

Ltac unfold_monad :=
  unfold bind, ret, raise, try_except, get_world, modify in *.

(** ** C9 *)

(** C9: when DiskInfo32.exe does not exist, [get_CrystalDiskInfo_log]
    returns [False] at once and leaves the machine exactly as it was: no
    launch, no process poll or sleep (the trace is unchanged), no clock
    reading, and no file or directory created, changed or removed. *)
Theorem tool_not_found_no_effect (fuel : nat) (w : world)
  (Hfile : files w !! executable_path (base w) = None)
  (Hdir : executable_path (base w) ∉ dirs w) :
  get_CrystalDiskInfo_log fuel w = (w, Ok false).
Proof.
  unfold get_CrystalDiskInfo_log, collect_raw_log, path_exists; unfold_monad.
  rewrite Hfile. rewrite (bool_decide_eq_false_2 (_ ∈ dirs w)) by exact Hdir.
  reflexivity.
Qed.

Lemma tool_not_found_no_effect_witness :
  files no_tool_world !! executable_path (base no_tool_world) = None /\
  (executable_path (base no_tool_world) ∉ dirs no_tool_world) /\
  get_CrystalDiskInfo_log 20 no_tool_world = (no_tool_world, Ok false).
Proof.
  split; [reflexivity | split; [set_solver |]].
  apply tool_not_found_no_effect; [reflexivity | set_solver].
Defined.

(** ** Paths *)

Lemma join_inj (b x y : text) : join b x = join b y -> x = y.
Proof.
  unfold join. destruct (rev b) as [|c r]; [done|].
  destruct (is_sep c); intros H.
  - by apply app_inv_head in H.
  - apply app_inv_head in H. by injection H.
Qed.

Lemma join_prefix (b : text) : exists p, forall x, join b x = p ++ x.
Proof.
  unfold join. destruct (rev b) as [|d q]; [by exists []|].
  destruct (is_sep d); [by exists b|]. exists (b ++ [92]). intros x.
  by rewrite <- app_assoc.
Qed.

Lemma join_app_sep (b x y : text) (c : N) (r : list N) :
  rev x = c :: r -> is_sep c = false ->
  join (join b x) y = join b x ++ [92] ++ y.
Proof.
  intros Hx Hc. unfold join at 1.
  destruct (join_prefix b) as [p Hp]. rewrite Hp.
  rewrite rev_app_distr, Hx. simpl. by rewrite Hc.
Qed.

Lemma raw_log_not_info_log (b stamp : text) :
  log_file_default b <> storage_info_log b stamp.
Proof.
  unfold log_file_default, storage_info_log, crystal_dir, log_folder.
  rewrite (join_app_sep b _ _ 111 (rev (removelast (u "CrystalDiskInfo")))) by reflexivity.
  rewrite (join_app_sep b _ _ 103 [111; 108]) by reflexivity.
  destruct (join_prefix b) as [p Hp]. rewrite !Hp, <- !app_assoc.
  intros H. apply app_inv_head in H. discriminate H.
Qed.

(** ** C1 *)

(** C1 (counterexample): the tool runs and its report contains no disk; the
    run returns [True] but no storage_info_log_<timestamp>.txt is written. *)
Lemma empty_parse_no_report_cex :
  get_storage_log (u "no disks") = [] /\
  snd (get_CrystalDiskInfo_log 20 (sample_world (Utf8 (u "no disks")) ∅)) = Ok true /\
  files (fst (get_CrystalDiskInfo_log 20 (sample_world (Utf8 (u "no disks")) ∅)))
    !! storage_info_log sample_base sample_stamp = None.
Proof. vm_compute. repeat split. Qed.

(** C1 (as amended): once the raw log has been copied, a parse result with
    no record makes [get_CrystalDiskInfo_log] return [True] without writing
    any report: the storage_info_log_<timestamp>.txt path is left as it was
    before parsing (absent, in a fresh run). *)
Theorem empty_parse_returns_true_without_report (fuel : nat) (w w1 : world)
  (content : text)
  (Hcopy : collect_raw_log fuel w = (w1, Ok (Some content)))
  (Hempty : get_storage_log content = []) :
  exists w2,
    get_CrystalDiskInfo_log fuel w = (w2, Ok true) /\
    files w2 !! storage_info_log (base w) (now_stamp w) =
    files w1 !! storage_info_log (base w) (now_stamp w).
Proof.
  unfold get_CrystalDiskInfo_log, store_report; unfold_monad.
  rewrite Hcopy, Hempty.
  unfold remove.
  destruct (bool_decide (log_file_default (base w) ∈ undeletable w1)
            || negb (bool_decide (is_Some (files w1 !! log_file_default (base w))))).
  - eexists; split; [reflexivity | reflexivity].
  - eexists; split; [reflexivity |]. simpl.
    rewrite lookup_delete_ne; [done|].
    apply raw_log_not_info_log.
Qed.

Lemma empty_parse_returns_true_without_report_witness :
  collect_raw_log 20 (sample_world (Utf8 (u "no disks")) ∅) =
    (fst (collect_raw_log 20 (sample_world (Utf8 (u "no disks")) ∅)), Ok (Some (u "no disks"))) /\
  get_storage_log (u "no disks") = [] /\
  exists w2,
    get_CrystalDiskInfo_log 20 (sample_world (Utf8 (u "no disks")) ∅) = (w2, Ok true) /\
    files w2 !! storage_info_log sample_base sample_stamp =
    files (fst (collect_raw_log 20 (sample_world (Utf8 (u "no disks")) ∅)))
      !! storage_info_log sample_base sample_stamp.
Proof.
  split; [vm_compute; reflexivity|]. split; [vm_compute; reflexivity|].
  apply (empty_parse_returns_true_without_report 20
           (sample_world (Utf8 (u "no disks")) ∅)
           (fst (collect_raw_log 20 (sample_world (Utf8 (u "no disks")) ∅)))
           (u "no disks")); vm_compute; reflexivity.
Defined.

(** ** C2 *)

(** C2 (counterexample): with the line "Power On Hours: 8,760 時間" the
    Power On Hours field of the parsed record is "N/A", not "8760". *)
Lemma hours_grouped_cex :
  get_storage_log (sample_log (u "Power On Hours: 8,760 " ++ u_hours)) =
  [[(L_MODEL, u "Samsung SSD 860"); (L_SIZE, u "500.1 GB");
    (L_IFACE, u "Serial ATA"); (L_HOURS, NA); (L_COUNT, u "123");
    (L_WRITES, u "1234"); (L_HEALTH, u "Good (99 %)")]].
Proof. vm_compute. reflexivity. Qed.

(** C2 (as amended): the hours pattern takes an ungrouped digit run before
    時間: "Power On Hours: 8,760 時間" gives the sentinel "N/A", while
    "Power On Hours: 8760 時間" gives "8760" (unit suffix dropped). *)
Theorem hours_field_extraction :
  get_storage_log (sample_log (u "Power On Hours: 8,760 " ++ u_hours)) =
  [[(L_MODEL, u "Samsung SSD 860"); (L_SIZE, u "500.1 GB");
    (L_IFACE, u "Serial ATA"); (L_HOURS, NA); (L_COUNT, u "123");
    (L_WRITES, u "1234"); (L_HEALTH, u "Good (99 %)")]] /\
  get_storage_log (sample_log (u "Power On Hours: 8760 " ++ u_hours)) =
  [[(L_MODEL, u "Samsung SSD 860"); (L_SIZE, u "500.1 GB");
    (L_IFACE, u "Serial ATA"); (L_HOURS, u "8760"); (L_COUNT, u "123");
    (L_WRITES, u "1234"); (L_HEALTH, u "Good (99 %)")]].
Proof. split; vm_compute; reflexivity. Qed.

(** ** C3 *)

(** C3 (code_bug): the report path cannot be opened for writing, the parse
    gave one record, and [get_CrystalDiskInfo_log] still returns [True]
    with no report written: [save_storage_info] swallows the error. *)
Theorem persist_failure_reported_as_success :
  get_storage_log (sample_log (u "  Power On Hours : 8760 " ++ u_hours)) <> [] /\
  snd (get_CrystalDiskInfo_log 20
         (sample_world (Utf8 (sample_log (u "  Power On Hours : 8760 " ++ u_hours)))
            {[storage_info_log sample_base sample_stamp]})) = Ok true /\
  files (fst (get_CrystalDiskInfo_log 20
         (sample_world (Utf8 (sample_log (u "  Power On Hours : 8760 " ++ u_hours)))
            {[storage_info_log sample_base sample_stamp]})))
    !! storage_info_log sample_base sample_stamp = None.
Proof. vm_compute. repeat split; discriminate. Qed.

(** ** C5 *)

(** C5: [get_storage_log] is a total function (it always returns a list;
    nothing in it raises), and it returns the empty list when the
    "-- Disk List" section is absent, when that section has no "(N) model"
    entry, or when no detail section is found. *)
Theorem parse_empty_without_sections (log_text : text)
  (H : search f_dotall DISK_LIST_PATTERN log_text = None \/
       (exists c st rest,
          search f_dotall DISK_LIST_PATTERN log_text = Some (c, st, rest) /\
          findall noflags DISK_ENTRY_PATTERN (group c 1) = []) \/
       findall f_dotall DISK_SECTION_PATTERN log_text = []) :
  get_storage_log log_text = [].
Proof.
  unfold get_storage_log.
  destruct H as [H | [[c [st [rest [H1 H2]]]] | H]].
  - by rewrite H.
  - by rewrite H1, H2.
  - destruct (search f_dotall DISK_LIST_PATTERN log_text) as [[[c st] rest]|]; [|done].
    destruct (findall noflags DISK_ENTRY_PATTERN (group c 1)); [done|].
    by rewrite H.
Qed.

Lemma parse_empty_without_sections_witness :
  (search f_dotall DISK_LIST_PATTERN (u "no disks") = None \/
   (exists c st rest,
      search f_dotall DISK_LIST_PATTERN (u "no disks") = Some (c, st, rest) /\
      findall noflags DISK_ENTRY_PATTERN (group c 1) = []) \/
   findall f_dotall DISK_SECTION_PATTERN (u "no disks") = []) /\
  get_storage_log (u "no disks") = [].
Proof.
  assert (H : search f_dotall DISK_LIST_PATTERN (u "no disks") = None)
    by (vm_compute; reflexivity).
  split; [left; exact H|].
  apply parse_empty_without_sections. left; exact H.
Defined.

(** ** C7 *)

Lemma wait_loop_step (f : nat) (start_time : Z) (w : world) :
  wait_loop (S f) start_time w =
  if negb (tool_seen w 0) then
    (set_counters (S (polls w)) (ticks w) (trace w ++ [EvProcessIter]) w, Ok true)
  else if past_timeout w start_time 0 then
    (set_counters (S (polls w)) (S (ticks w)) (trace w ++ [EvProcessIter]) w, Ok false)
  else
    wait_loop f start_time
      (set_counters (S (polls w)) (S (ticks w))
         (trace w ++ [EvProcessIter] ++ [EvSleep poll_interval_us]) w).
Proof.
  unfold tool_seen, past_timeout. rewrite !Nat.add_0_r.
  simpl wait_loop. unfold_monad. unfold process_iter, time_now, sleep. simpl.
  destruct (existsb is_tool_process (process_names w (polls w))); simpl; [|reflexivity].
  destruct (clock w (ticks w) - start_time >? timeout_us)%Z; [reflexivity|].
  unfold set_counters; simpl. by rewrite <- app_assoc.
Qed.

Lemma tool_seen_next (w : world) (ev : list event) (i : nat) :
  tool_seen (set_counters (S (polls w)) (S (ticks w)) ev w) i = tool_seen w (S i).
Proof. unfold tool_seen. simpl. do 2 f_equal. lia. Qed.

Lemma past_timeout_next (w : world) (ev : list event) (start_time : Z) (i : nat) :
  past_timeout (set_counters (S (polls w)) (S (ticks w)) ev w) start_time i =
  past_timeout w start_time (S i).
Proof. unfold past_timeout. simpl. do 3 f_equal. lia. Qed.

Lemma still_waiting_next (w : world) (ev : list event) (start_time : Z) (i : nat) :
  tool_seen w 0 = true -> past_timeout w start_time 0 = false ->
  still_waiting (set_counters (S (polls w)) (S (ticks w)) ev w) start_time i ->
  still_waiting w start_time (S i).
Proof.
  intros H0 T0 Hw [|j] Hj; [done|].
  rewrite <- (tool_seen_next w ev), <- (past_timeout_next w ev). apply Hw. lia.
Qed.

Lemma still_waiting_prev (w : world) (ev : list event) (start_time : Z) (i : nat) :
  still_waiting w start_time (S i) ->
  still_waiting (set_counters (S (polls w)) (S (ticks w)) ev w) start_time i.
Proof.
  intros Hw j Hj. rewrite tool_seen_next, past_timeout_next. apply Hw. lia.
Qed.

Lemma set_counters_trace (p t : nat) (ev : list event) (w : world) :
  trace (set_counters p t ev w) = ev.
Proof. reflexivity. Qed.

(** C7: the completion wait polls the process table, sleeping the fixed
    0.5 s between two polls; it succeeds at the first poll that lists no
    process named DiskInfo32.exe (compared case-insensitively through
    [str.lower]), and fails, never succeeding, at the first poll that still
    lists one when the clock shows more than the fixed 10 s since the start.
    (Within [fuel] iterations; the trace records the polls and sleeps.) *)
Theorem wait_loop_spec (fuel : nat) (start_time : Z) (w : world) :
  (snd (wait_loop fuel start_time w) = Ok true <->
   exists i, (i < fuel)%nat /\ tool_seen w i = false /\ still_waiting w start_time i) /\
  (snd (wait_loop fuel start_time w) = Ok false <->
   exists i, (i < fuel)%nat /\ tool_seen w i = true /\
             past_timeout w start_time i = true /\ still_waiting w start_time i) /\
  (forall b, snd (wait_loop fuel start_time w) = Ok b ->
   exists i, still_waiting w start_time i /\
             trace (fst (wait_loop fuel start_time w)) = trace w ++ poll_events i).
Proof.
  revert w. induction fuel as [|f IH]; intros w.
  { simpl. split; [|split].
    - split; [discriminate | intros (i & Hi & _); lia].
    - split; [discriminate | intros (i & Hi & _); lia].
    - discriminate. }
  rewrite wait_loop_step.
  destruct (tool_seen w 0) eqn:H0; simpl negb; cbv iota.
  - destruct (past_timeout w start_time 0) eqn:T0.
    + split; [|split].
      * split; [discriminate|]. intros (i & Hi & Hs & Hw). destruct i as [|i].
        { congruence. } destruct (Hw 0%nat ltac:(lia)) as [_ T]. congruence.
      * split; [|reflexivity]. intros _. exists 0%nat.
        split; [lia|]. split; [done|]. split; [done|]. intros k Hk; lia.
      * intros b _. exists 0%nat. split; [intros k Hk; lia|]. reflexivity.
    + set (w3 := set_counters (S (polls w)) (S (ticks w))
                   (trace w ++ [EvProcessIter] ++ [EvSleep poll_interval_us]) w).
      destruct (IH w3) as [IHt [IHf IHtr]].
      split; [|split].
      * rewrite IHt. split.
        -- intros (i & Hi & Hs & Hw). exists (S i). split; [lia|]. split.
           ++ by rewrite <- (tool_seen_next w (trace w ++ [EvProcessIter] ++ [EvSleep poll_interval_us])).
           ++ by apply (still_waiting_next w (trace w ++ [EvProcessIter] ++ [EvSleep poll_interval_us])).
        -- intros (i & Hi & Hs & Hw). destruct i as [|i]; [congruence|].
           exists i. split; [lia|]. split.
           ++ unfold w3. by rewrite tool_seen_next.
           ++ by apply still_waiting_prev.
      * rewrite IHf. split.
        -- intros (i & Hi & Hs & Ht & Hw). exists (S i). split; [lia|].
           unfold w3 in Hs, Ht. rewrite tool_seen_next in Hs. rewrite past_timeout_next in Ht.
           split; [done|]. split; [done|].
           by apply (still_waiting_next w (trace w ++ [EvProcessIter] ++ [EvSleep poll_interval_us])).
        -- intros (i & Hi & Hs & Ht & Hw). destruct i as [|i]; [congruence|].
           exists i. split; [lia|]. unfold w3. rewrite tool_seen_next, past_timeout_next.
           split; [done|]. split; [done|]. by apply still_waiting_prev.
      * intros b Hb. destruct (IHtr b Hb) as (i & Hw & Htr). exists (S i). split.
        -- by apply (still_waiting_next w (trace w ++ [EvProcessIter] ++ [EvSleep poll_interval_us])).
        -- rewrite Htr. unfold w3. rewrite set_counters_trace. unfold poll_events.
           simpl. by rewrite <- !app_assoc.
  - split; [|split].
    + split; [|reflexivity]. intros _. exists 0%nat.
      split; [lia|]. split; [done|]. intros k Hk; lia.
    + split; [discriminate|]. intros (i & Hi & Hs & Ht & Hw). destruct i as [|i].
      { congruence. } destruct (Hw 0%nat ltac:(lia)) as [Hs0 _]. congruence.
    + intros b _. exists 0%nat. split; [intros k Hk; lia|]. reflexivity.
Qed.

(** ** C8 *)


Lemma log_folder_join (b n : text) :
  join (log_folder b) n = log_folder b ++ [92] ++ n.
Proof.
  unfold log_folder. by rewrite (join_app_sep b _ _ 103 [111; 108]).
Qed.









(** ** The matcher, the parser and the persisted format *)

Lemma star_with_fuel step g n1 n2 s :
  (length s < n1)%nat -> (length s < n2)%nat ->
  star_with step g n1 s = star_with step g n2 s.
Proof.
  revert n2 s. induction n1 as [|n1 IH]; intros [|n2] s H1 H2; try lia.
  simpl. destruct g; [f_equal|f_equal]; apply flat_map_ext; intros [c1 s1];
  destruct (length s1 <? length s)%nat eqn:E; try reflexivity;
  apply Nat.ltb_lt in E; f_equal; apply IH; lia.
Qed.

Lemma m_star_unfold fl g r0 s :
  m fl (Star g r0) s =
  let more := flat_map (fun '(c1, s1) =>
      if (length s1 <? length s)%nat
      then map (fun '(c2, s2) => (c1 ++ c2, s2)) (m fl (Star g r0) s1)
      else []) (m fl r0 s) in
  if g then more ++ [([], s)] else ([], s) :: more.
Proof.
  assert (Hf : forall s1, m fl (Star g r0) s1 = star_with (m fl r0) g (S (length s1)) s1)
    by reflexivity.
  rewrite Hf. cbn [star_with].
  destruct g; [f_equal|f_equal]; apply flat_map_ext; intros [c1 s1];
  destruct (length s1 <? length s)%nat eqn:E; try reflexivity;
  apply Nat.ltb_lt in E; f_equal; rewrite Hf; apply star_with_fuel; lia.
Qed.

Lemma m_cat fl r1 r2 s :
  m fl (Cat r1 r2) s =
  flat_map (fun '(c1, s1) => map (fun '(c2, s2) => (c1 ++ c2, s2)) (m fl r2 s1)) (m fl r1 s).
Proof. reflexivity. Qed.

Lemma map_pair_id {B} (l : list (caps * B)) :
  map (fun '(c2, s2) => (c2, s2)) l = l.
Proof. induction l as [|[c s] l IH]; simpl; [done | by rewrite IH]. Qed.

Lemma map_nil_app {B} (l : list (caps * B)) :
  map (fun '(c2, s2) => ([] ++ c2, s2)) l = l.
Proof. exact (map_pair_id l). Qed.

Lemma flat_map_single {X Y} (f : X -> list Y) (x : X) : flat_map f [x] = f x.
Proof. simpl. apply app_nil_r. Qed.

Lemma m_single fl r0 s : single r0 = true ->
  m fl r0 s = match s with
              | c :: s' => if char_ok fl r0 c then [([], s')] else []
              | [] => []
              end.
Proof. destruct r0; try discriminate; reflexivity. Qed.

Lemma m_star1 fl r0 s : single r0 = true -> m fl (Star true r0) s = star1 fl r0 s.
Proof.
  intros Hr. induction s as [|c s IH].
  - rewrite m_star_unfold, (m_single fl r0 []) by done. reflexivity.
  - rewrite m_star_unfold, (m_single fl r0 (c :: s)) by done. cbn -[m].
    destruct (char_ok fl r0 c); [|reflexivity].
    rewrite flat_map_single. cbv beta iota. rewrite Nat.leb_refl.
    by rewrite map_nil_app, IH.
Qed.

Lemma star1_hd fl r0 s : exists l, star1 fl r0 s = ([], drop_while (char_ok fl r0) s) :: l.
Proof.
  induction s as [|c s [l IH]]; simpl; [eauto|].
  destruct (char_ok fl r0 c); [rewrite IH|]; eauto.
Qed.

Lemma star1_in fl r0 s c s' : In (c, s') (star1 fl r0 s) ->
  c = [] /\ exists p, s = p ++ s' /\ forallb (char_ok fl r0) p = true.
Proof.
  revert c s'. induction s as [|a s IH]; simpl; intros c s' H.
  - destruct H as [H|[]]. injection H as <- <-. split; [done|]. by exists [].
  - destruct (char_ok fl r0 a) eqn:Ha.
    + apply in_app_or in H as [H|[H|[]]].
      * destruct (IH _ _ H) as [-> (p & -> & Hp)]. split; [done|].
        exists (a :: p). simpl. by rewrite Ha, Hp.
      * injection H as <- <-. split; [done|]. by exists [].
    + destruct H as [H|[]]. injection H as <- <-. split; [done|]. by exists [].
Qed.

Lemma m_lits fl t s : m fl (lits t) s =
  match lits_match fl t s with Some s1 => [([], s1)] | None => [] end.
Proof.
  revert s. induction t as [|a t IH]; intros s; [reflexivity|].
  change (lits (a :: t)) with (Cat (Lit a) (lits t)).
  rewrite m_cat, (m_single fl (Lit a)) by done.
  destruct s as [|c s]; [reflexivity|].
  change (lits_match fl (a :: t) (c :: s))
    with (if char_ok fl (Lit a) c then lits_match fl t s else None).
  destruct (char_ok fl (Lit a) c); [|reflexivity].
  rewrite flat_map_single. cbv beta iota. by rewrite map_nil_app, IH.
Qed.

Lemma in_m_cat fl r1 r2 s c s' :
  In (c, s') (m fl (Cat r1 r2) s) <->
  exists c1 s1 c2, In (c1, s1) (m fl r1 s) /\ In (c2, s') (m fl r2 s1) /\ c = c1 ++ c2.
Proof.
  rewrite m_cat, in_flat_map. split.
  - intros ([c1 s1] & H1 & H2). apply in_map_iff in H2 as ([c2 s2] & E & H2).
    injection E as <- <-. eauto 6.
  - intros (c1 & s1 & c2 & H1 & H2 & ->). exists (c1, s1). split; [done|].
    apply in_map_iff. by exists (c2, s').
Qed.

Lemma in_star_shape {X} (g : bool) (more : list X) (y x : X) :
  In x (if g then more ++ [y] else y :: more) <-> In x more \/ x = y.
Proof.
  destruct g; simpl; rewrite ?in_app_iff; simpl; intuition.
Qed.

Lemma incl_firstn_self (k : nat) (s : text) : incl (firstn k s) s.
Proof. intros x Hx. rewrite <- (firstn_skipn k s). apply in_or_app. by left. Qed.

Lemma m_sound fl r : forall s c s', In (c, s') (m fl r s) ->
  suffix_of s' s /\ Forall (fun it => incl (snd it) s) c /\
  (has_group r = false -> c = []).
Proof.
  induction r as [| a | | p | r1 IH1 r2 IH2 | g r0 IH | i r0 IH]; intros s c s' H.
  - destruct H as [H|[]]. injection H as <- <-.
    split; [by exists []|]. split; [constructor|done].
  - rewrite m_single in H by done. destruct s as [|x s]; [done|].
    destruct (char_ok fl (Lit a) x); [|done]. destruct H as [H|[]]. injection H as <- <-.
    split; [by exists [x]|]. split; [constructor|done].
  - rewrite m_single in H by done. destruct s as [|x s]; [done|].
    destruct (char_ok fl Dot x); [|done]. destruct H as [H|[]]. injection H as <- <-.
    split; [by exists [x]|]. split; [constructor|done].
  - rewrite m_single in H by done. destruct s as [|x s]; [done|].
    destruct (char_ok fl (Cls p) x); [|done]. destruct H as [H|[]]. injection H as <- <-.
    split; [by exists [x]|]. split; [constructor|done].
  - apply in_m_cat in H as (c1 & s1 & c2 & H1 & H2 & ->).
    destruct (IH1 _ _ _ H1) as ([p1 ->] & F1 & G1).
    destruct (IH2 _ _ _ H2) as ([p2 ->] & F2 & G2).
    split; [exists (p1 ++ p2); by rewrite app_assoc|]. split.
    + apply Forall_app. split; [done|].
      eapply Forall_impl; [exact F2|]. intros it Hi. by apply incl_appr.
    + simpl. intros Hg. apply orb_false_iff in Hg as [Hg1 Hg2].
      by rewrite G1, G2.
  - revert c s' H. induction s as [s IHs] using (induction_ltof1 _ (@length N)).
    unfold ltof in IHs. intros c s' H.
    rewrite m_star_unfold in H. cbv zeta in H. apply in_star_shape in H as [H|H].
    + apply in_flat_map in H as ([c1 s1] & H1 & H2).
      destruct (length s1 <? length s)%nat eqn:E; [|done]. apply Nat.ltb_lt in E.
      apply in_map_iff in H2 as ([c2 s2] & E2 & H2). injection E2 as <- <-.
      destruct (IH _ _ _ H1) as ([p1 ->] & F1 & G1).
      destruct (IHs s1 E _ _ H2) as ([p2 ->] & F2 & G2).
      split; [exists (p1 ++ p2); by rewrite app_assoc|]. split.
      * apply Forall_app. split; [done|].
        eapply Forall_impl; [exact F2|]. intros it Hi. by apply incl_appr.
      * simpl. intros Hg. by rewrite G1, G2.
    + injection H as -> ->. split; [by exists []|]. split; [constructor|done].
  - simpl in H. apply in_map_iff in H as ([c0 s0] & E & H0). injection E as <- <-.
    destruct (IH _ _ _ H0) as ([p ->] & F & G). split; [by exists p|]. split.
    + apply Forall_app. split; [done|]. constructor; [apply incl_firstn_self|constructor].
    + discriminate.
Qed.

Lemma lstrip_hd_ok t : hd_ok (lstrip t) = true.
Proof. induction t as [|c t IH]; simpl; [done|]. destruct (is_space c) eqn:E; simpl; [done|]. by rewrite E. Qed.

Lemma lstrip_id t : hd_ok t = true -> lstrip t = t.
Proof. destruct t as [|c t]; simpl; [done|]. by destruct (is_space c). Qed.

Lemma lstrip_split t : exists w, t = w ++ lstrip t /\ forallb is_space w = true.
Proof.
  induction t as [|c t (w & Hw & Hs)]; simpl; [by exists []|].
  destruct (is_space c) eqn:E.
  - exists (c :: w). simpl. rewrite E, Hs. by rewrite <- Hw.
  - by exists [].
Qed.

Lemma rstrip_last_ok t : last_ok (rstrip t) = true.
Proof. unfold last_ok, rstrip. rewrite rev_involutive. apply lstrip_hd_ok. Qed.

Lemma rstrip_id t : last_ok t = true -> rstrip t = t.
Proof. unfold last_ok, rstrip. intros H. by rewrite lstrip_id, rev_involutive. Qed.

Lemma rstrip_split t : exists w, t = rstrip t ++ w /\ forallb is_space w = true.
Proof.
  destruct (lstrip_split (rev t)) as (w & Hw & Hs). exists (rev w).
  unfold rstrip. split.
  - rewrite <- rev_app_distr, <- Hw. by rewrite rev_involutive.
  - rewrite forallb_forall in *. intros x Hx. apply Hs. by apply in_rev.
Qed.

Lemma rstrip_hd_ok t : hd_ok t = true -> hd_ok (rstrip t) = true.
Proof.
  destruct (rstrip_split t) as (w & Hw & _). intros H.
  destruct (rstrip t) as [|c r]; [done|]. by rewrite Hw in H.
Qed.

Lemma strip_hd_ok t : hd_ok (strip t) = true.
Proof. unfold strip. apply rstrip_hd_ok, lstrip_hd_ok. Qed.

Lemma strip_last_ok t : last_ok (strip t) = true.
Proof. apply rstrip_last_ok. Qed.

Lemma strip_id t : hd_ok t = true -> last_ok t = true -> strip t = t.
Proof. intros H1 H2. unfold strip. by rewrite lstrip_id, rstrip_id. Qed.

Lemma strip_idem t : strip (strip t) = strip t.
Proof. apply strip_id; [apply strip_hd_ok | apply strip_last_ok]. Qed.

Lemma strip_split t : exists w1 w2, t = w1 ++ strip t ++ w2 /\
  forallb is_space w1 = true /\ forallb is_space w2 = true.
Proof.
  destruct (lstrip_split t) as (w1 & H1 & S1).
  destruct (rstrip_split (lstrip t)) as (w2 & H2 & S2).
  exists w1, w2. unfold strip. split; [|done]. rewrite <- H2. exact H1.
Qed.

Lemma strip_incl t : incl (strip t) t.
Proof.
  destruct (strip_split t) as (w1 & w2 & H & _). intros x Hx. rewrite H.
  apply in_or_app. right. apply in_or_app. by left.
Qed.

Lemma strip_keeps t c : In c t -> is_space c = false -> In c (strip t).
Proof.
  destruct (strip_split t) as (w1 & w2 & H & S1 & S2). intros Hc Hs. rewrite H in Hc.
  apply in_app_or in Hc as [Hc|Hc]; [|apply in_app_or in Hc as [Hc|Hc]]; [| done |];
    exfalso; [rewrite forallb_forall in S1 | rewrite forallb_forall in S2];
    [specialize (S1 c Hc) | specialize (S2 c Hc)]; congruence.
Qed.

Lemma nospace_hd_ok t : forallb (fun c => negb (is_space c)) t = true -> hd_ok t = true.
Proof. destruct t as [|c t]; simpl; [done|]. by destruct (negb (is_space c)). Qed.

Lemma nospace_strip t : forallb (fun c => negb (is_space c)) t = true -> strip t = t.
Proof.
  intros H. apply strip_id; [by apply nospace_hd_ok|].
  unfold last_ok. apply nospace_hd_ok. rewrite forallb_forall in *.
  intros x Hx. apply H. by apply in_rev.
Qed.

Lemma last_ok_suffix s s' : last_ok s = true -> suffix_of s' s -> last_ok s' = true.
Proof.
  intros H [p ->]. unfold last_ok in *. rewrite rev_app_distr in H.
  destruct (rev s') as [|c r]; [done|]. exact H.
Qed.

Lemma drop_while_nil p s : drop_while p s = [] -> forallb p s = true.
Proof. induction s as [|c s IH]; simpl; [done|]. destruct (p c); simpl; [done|]. discriminate. Qed.

Lemma drop_while_hd p s c s' : drop_while p s = c :: s' -> p c = false.
Proof. induction s as [|a s IH]; simpl; [discriminate|]. destruct (p a) eqn:E; [done|]. by intros [= -> _]. Qed.

Lemma all_space_last_ok s : forallb is_space s = true -> last_ok s = true -> s = [].
Proof.
  intros H1 H2. destruct s as [|c s] using rev_ind; [done|]. exfalso.
  unfold last_ok in H2. rewrite rev_app_distr in H2. simpl in H2.
  rewrite forallb_app in H1. simpl in H1. destruct (is_space c); [done|].
  rewrite andb_false_r in H1. discriminate.
Qed.

Lemma is_space_nl : is_space nl = true.
Proof. reflexivity. Qed.

(** search and group *)
Lemma search_some fl r s c st s' :
  search fl r s = Some (c, st, s') -> suffix_of st s /\ exists l, m fl r st = (c, s') :: l.
Proof.
  induction s as [|a s IH]; intros H; simpl in H.
  - destruct (m fl r []) as [|[c0 s0] l] eqn:E; [discriminate|].
    injection H as <- <- <-. split; [by exists []|]. eauto.
  - destruct (m fl r (a :: s)) as [|[c0 s0] l] eqn:E.
    + destruct (IH H) as ([p ->] & Hm). split; [by exists (a :: p)|]. done.
    + injection H as <- <- <-. split; [by exists []|]. eauto.
Qed.

Lemma group_single (i : nat) (t : text) : group [(i, t)] i = t.
Proof. unfold group. simpl. by rewrite Nat.eqb_refl. Qed.

(** flat_map heads *)
Lemma flat_map_cons' {X Y} (f : X -> list Y) x l : flat_map f (x :: l) = f x ++ flat_map f l.
Proof. reflexivity. Qed.

Lemma flat_map_hd_in {X Y} (f : X -> list Y) l y ys :
  flat_map f l = y :: ys -> exists x zs, In x l /\ f x = y :: zs.
Proof.
  induction l as [|x l IH]; simpl; [discriminate|].
  destruct (f x) as [|z zs] eqn:E; simpl.
  - intros H. destruct (IH H) as (x' & zs' & Hin & Hx). eauto.
  - intros [= <- _]. exists x, zs. auto.
Qed.

(** Building blocks of the field patterns *)
Lemma has_group_lits t : has_group (lits t) = false.
Proof. induction t as [|a t IH]; [done|]. exact IH. Qed.

Lemma m_cat_lits fl t r s :
  m fl (Cat (lits t) r) s =
  match lits_match fl t s with Some s1 => m fl r s1 | None => [] end.
Proof.
  rewrite m_cat, m_lits. destruct (lits_match fl t s); [|done].
  rewrite flat_map_single. cbv beta iota. apply map_nil_app.
Qed.

Lemma m_cat_single fl r0 r s : single r0 = true ->
  m fl (Cat r0 r) s =
  match s with c :: s' => if char_ok fl r0 c then m fl r s' else [] | [] => [] end.
Proof.
  intros H. rewrite m_cat, m_single by done. destruct s as [|c s]; [done|].
  destruct (char_ok fl r0 c); [|done].
  rewrite flat_map_single. cbv beta iota. apply map_nil_app.
Qed.

Lemma flat_map_star1 fl r0 (f : text -> list (caps * text)) s :
  flat_map (fun '(c1, s1) => map (fun '(c2, s2) => (c1 ++ c2, s2)) (f s1)) (star1 fl r0 s) =
  flat_map (fun '(_, s1) => f s1) (star1 fl r0 s).
Proof.
  induction s as [|c s IH]; simpl.
  - by rewrite !app_nil_r, map_nil_app.
  - destruct (char_ok fl r0 c); simpl; rewrite ?flat_map_app, ?IH; simpl; by rewrite ?map_nil_app.
Qed.

Lemma m_cat_star1 fl r0 r s : single r0 = true ->
  m fl (Cat (Star true r0) r) s = flat_map (fun '(_, s1) => m fl r s1) (star1 fl r0 s).
Proof. intros H. rewrite m_cat, m_star1 by done. apply flat_map_star1. Qed.

Lemma m_plus_single fl r0 s : single r0 = true ->
  m fl (Plus r0) s =
  match s with c :: s' => if char_ok fl r0 c then star1 fl r0 s' else [] | [] => [] end.
Proof.
  intros H. unfold Plus. rewrite m_cat_single by done.
  destruct s as [|c s]; [done|]. by rewrite m_star1.
Qed.

Lemma in_group_plus fl i r0 s c s' : single r0 = true ->
  In (c, s') (m fl (Group i (Plus r0)) s) ->
  exists y p, s = y :: p ++ s' /\ char_ok fl r0 y = true /\
    forallb (char_ok fl r0) p = true /\ c = [(i, y :: p)].
Proof.
  intros Hr H. cbn [m] in H. apply in_map_iff in H as ([c0 s0] & E & H0).
  injection E as <- <-. rewrite m_plus_single in H0 by done.
  destruct s as [|y s]; [done|]. destruct (char_ok fl r0 y) eqn:Ey; [|done].
  destruct (star1_in _ _ _ _ _ H0) as [-> (p & -> & Hp)].
  exists y, p. split; [done|]. split; [done|]. split; [done|].
  simpl. f_equal. f_equal. rewrite length_app.
  replace (S (length p + length s0) - length s0)%nat with (S (length p)) by lia.
  simpl. by rewrite firstn_app, Nat.sub_diag, firstn_all, firstn_O, app_nil_r.
Qed.

Lemma lits_match_suffix fl t s s1 : lits_match fl t s = Some s1 -> suffix_of s1 s.
Proof.
  revert s. induction t as [|a t IH]; intros [|c s].
  - intros [= <-]. by exists [].
  - intros [= <-]. by exists [].
  - discriminate.
  - change (lits_match fl (a :: t) (c :: s))
      with (if char_ok fl (Lit a) c then lits_match fl t s else None).
    destruct (char_ok fl (Lit a) c); [|discriminate]. intros H.
    destruct (IH s H) as [p ->]. by exists (c :: p).
Qed.

Lemma suffix_trans a b c : suffix_of a b -> suffix_of b c -> suffix_of a c.
Proof. intros [p ->] [q ->]. exists (q ++ p). by rewrite app_assoc. Qed.

Lemma firstn_consumed (p s : text) : firstn (length (p ++ s) - length s) (p ++ s) = p.
Proof.
  rewrite length_app. replace (length p + length s - length s)%nat with (length p) by lia.
  by rewrite firstn_app, Nat.sub_diag, firstn_all, firstn_O, app_nil_r.
Qed.

Lemma m_group fl i r0 s :
  m fl (Group i r0) s =
  map (fun '(c, s') => (c ++ [(i, firstn (length s - length s') s)], s')) (m fl r0 s).
Proof. reflexivity. Qed.

Lemma m_cat_EE fl r s : m fl (Cat r (Cat Empty Empty)) s = m fl r s.
Proof.
  rewrite m_cat. induction (m fl r s) as [|[c1 s1] L IH]; [done|].
  rewrite flat_map_cons', IH. simpl. by rewrite !app_nil_r.
Qed.

Lemma in_field fl label r0 tail s c s' : single r0 = true -> has_group tail = false ->
  In (c, s') (m fl (field_pattern label (Plus r0) tail) s) ->
  exists y p, c = [(1%nat, y :: p)] /\ char_ok fl r0 y = true /\
    forallb (char_ok fl r0) p = true.
Proof.
  intros Hr Ht H. unfold field_pattern, seq_re in H. cbn [fold_right] in H.
  apply in_m_cat in H as (c1 & s1 & c2 & H1 & H & ->).
  apply in_m_cat in H as (c3 & s3 & c4 & H3 & H & ->).
  apply in_m_cat in H as (c5 & s5 & c6 & H5 & H & ->).
  apply in_m_cat in H as (c7 & s7 & c8 & H7 & H & ->).
  apply in_m_cat in H as (c9 & s9 & c10 & H9 & H10 & ->).
  rewrite (proj2 (proj2 (m_sound _ _ _ _ _ H1))) by apply has_group_lits.
  rewrite (proj2 (proj2 (m_sound _ _ _ _ _ H3))) by done.
  rewrite (proj2 (proj2 (m_sound _ _ _ _ _ H5))) by done.
  rewrite (proj2 (proj2 (m_sound _ _ _ _ _ H7))) by done.
  rewrite (proj2 (proj2 (m_sound _ _ _ _ _ H10))) by (simpl; by rewrite Ht).
  destruct (in_group_plus _ _ _ _ _ _ Hr H9) as (y & p & _ & Hy & Hp & ->).
  by exists y, p.
Qed.

Lemma field_dot_head label s c s' l :
  last_ok s = true ->
  m f_icase (field_pattern label (Plus Dot) Empty) s = (c, s') :: l ->
  exists y p, c = [(1%nat, y :: p)] /\ is_space y = false /\ ~ In nl (y :: p).
Proof.
  intros Hs H. unfold field_pattern, seq_re in H. cbn [fold_right] in H.
  rewrite m_cat_lits in H.
  destruct (lits_match f_icase label s) as [s1|] eqn:E1; [|discriminate].
  apply lits_match_suffix in E1.
  rewrite m_cat_star1 in H by done.
  destruct (flat_map_hd_in _ _ _ _ H) as ([c2 s2] & zs & Hin & H2).
  destruct (star1_in _ _ _ _ _ Hin) as [_ (p2 & -> & _)].
  rewrite m_cat_single in H2 by done. destruct s2 as [|x s3]; [discriminate|].
  destruct (char_ok f_icase (Lit colon) x); [|discriminate].
  rewrite m_cat_star1 in H2 by done.
  assert (Hs3 : last_ok s3 = true).
  { apply (last_ok_suffix s); [done|]. apply (suffix_trans _ (p2 ++ x :: s3)); [|done].
    exists (p2 ++ [x]). by rewrite <- app_assoc. }
  destruct (star1_hd f_icase ws s3) as [l1 Hl1]. rewrite Hl1, flat_map_cons' in H2.
  cbv beta iota in H2.
  destruct (drop_while (char_ok f_icase ws) s3) as [|y s5] eqn:E4.
  - apply drop_while_nil in E4.
    assert (s3 = []) by (by apply all_space_last_ok). subst s3.
    simpl in Hl1. injection Hl1 as <-. vm_compute in H2. discriminate.
  - apply drop_while_hd in E4. change (is_space y = false) in E4.
    rewrite m_cat_EE, m_group, m_plus_single in H2 by done.
    assert (Hy : char_ok f_icase Dot y = true).
    { simpl. destruct (y =? nl) eqn:En; [|done]. apply N.eqb_eq in En. subst y. discriminate. }
    rewrite Hy in H2.
    destruct (star1_hd f_icase Dot s5) as [l2 Hl2].
    assert (Hh : In ([], drop_while (char_ok f_icase Dot) s5) (star1 f_icase Dot s5))
      by (rewrite Hl2; left; done).
    destruct (star1_in _ _ _ _ _ Hh) as [_ (p & Hp5 & Hp)].
    rewrite Hl2 in H2. cbn [map app] in H2. injection H2 as Hc _ _.
    rewrite <- Hc. exists y, p. split.
    + set (s6 := drop_while (char_ok f_icase Dot) s5) in *. rewrite Hp5.
      do 2 f_equal. exact (firstn_consumed (y :: p) s6).
    + split; [done|]. intros [Hn|Hn].
      * subst y. discriminate.
      * rewrite forallb_forall in Hp. specialize (Hp nl Hn). discriminate.
Qed.

Lemma is_space_cases c : is_space c = true -> In c space_chars.
Proof.
  unfold is_space. intros H.
  repeat (apply orb_true_iff in H; destruct H as [H|H]);
    first [ apply andb_true_iff in H as [H1 H2]; apply N.leb_le in H1, H2
          | apply N.eqb_eq in H ];
    unfold space_chars; simpl; lia.
Qed.

Lemma not_space_of (p : N -> bool) :
  forallb (fun c => negb (p c)) space_chars = true ->
  forall c, p c = true -> is_space c = false.
Proof.
  intros Hall c Hc. destruct (is_space c) eqn:E; [|done]. exfalso.
  apply is_space_cases in E. rewrite forallb_forall in Hall.
  specialize (Hall c E). rewrite Hc in Hall. discriminate.
Qed.

Lemma digit_not_space c : is_digit c = true -> is_space c = false.
Proof. apply not_space_of. vm_compute. reflexivity. Qed.

Lemma writes_char_not_space c : writes_char c = true -> is_space c = false.
Proof. apply not_space_of. vm_compute. reflexivity. Qed.

Lemma suffix_incl s' s : suffix_of s' s -> incl s' s.
Proof. intros [p ->]. apply incl_appr, incl_refl. Qed.

Lemma group_incl c i s : Forall (fun it => incl (snd it) s) c -> incl (group c i) s.
Proof.
  unfold group. assert (H0 : incl (@nil N) s) by (intros x []).
  revert H0. generalize (@nil N). induction c as [|[j t] c IH]; intros acc Hacc Hc; [done|].
  inversion Hc as [|? ? Ht Hc']; subst. cbn [fold_left]. apply IH; [|done].
  destruct (Nat.eqb j i); [exact Ht|exact Hacc].
Qed.

Lemma findall_caps fl r n s c w : In (c, w) (findall_aux fl r n s) ->
  Forall (fun it => incl (snd it) s) c.
Proof.
  revert s. induction n as [|n IH]; intros s H; [done|]. cbn [findall_aux] in H.
  destruct (search fl r s) as [[[c0 st] s']|] eqn:E; [|done].
  apply search_some in E as (Hst & l & Hm).
  assert (Hin : In (c0, s') (m fl r st)) by (rewrite Hm; by left).
  destruct (m_sound _ _ _ _ _ Hin) as (Hs' & F & _).
  destruct H as [H|H].
  - injection H as <- _. eapply Forall_impl; [exact F|]. intros it Hi.
    eapply incl_tran; [exact Hi|]. by apply suffix_incl.
  - apply IH in H. eapply Forall_impl; [exact H|]. intros it Hi.
    eapply incl_tran; [exact Hi|]. apply suffix_incl.
    apply (suffix_trans _ s'); [|exact (suffix_trans _ _ _ Hs' Hst)].
    destruct (length s' <? length st)%nat; [by exists []|].
    destruct s' as [|x s'']; [by exists []|]. by exists [x].
Qed.

Lemma get_storage_log_records t r : In r (get_storage_log t) ->
  exists sec, r = disk_info sec /\ last_ok sec = true /\ incl sec t.
Proof.
  unfold get_storage_log. intros H.
  destruct (search f_dotall DISK_LIST_PATTERN t) as [[[c ?] ?]|]; [|done].
  destruct (findall noflags DISK_ENTRY_PATTERN (group c 1)); [done|].
  destruct (map _ _) as [|d ds] eqn:Es; [done|].
  unfold disks_of_sections in H. apply in_flat_map in H as (sec & Hsec & H).
  destruct (strip sec) as [|a t'] eqn:E; [done|]. destruct H as [<-|[]].
  exists (a :: t'). split; [done|]. split; [rewrite <- E; apply strip_last_ok|].
  rewrite <- E. eapply incl_tran; [apply strip_incl|].
  rewrite <- Es in Hsec. apply in_map_iff in Hsec as ([c1 w1] & <- & Hin).
  apply group_incl. unfold findall in Hin. exact (findall_caps _ _ _ _ _ _ Hin).
Qed.

Lemma extract_dot_ok sec label : last_ok sec = true ->
  let v := extract_field sec (field_pattern label (Plus Dot) Empty) in
  v = NA \/ (strip v = v /\ ~ In nl v /\ v <> []).
Proof.
  intros Hs v. unfold v, extract_field.
  destruct (search f_icase _ sec) as [[[c st] s']|] eqn:E; [|by left]. right.
  apply search_some in E as (Hsuf & l & Hm).
  destruct (field_dot_head _ _ _ _ _ (last_ok_suffix _ _ Hs Hsuf) Hm)
    as (y & p & -> & Hy & Hn).
  rewrite group_single. split; [apply strip_idem|]. split.
  - intros Hin. apply Hn. by apply strip_incl.
  - intros E. apply (strip_keeps (y :: p) y) in Hy; [|by left]. by rewrite E in Hy.
Qed.

Lemma extract_plus_ok sec label r0 tail :
  single r0 = true -> has_group tail = false ->
  (forall c, char_ok f_icase r0 c = true -> is_space c = false) ->
  let v := extract_field sec (field_pattern label (Plus r0) tail) in
  v = NA \/ (v <> [] /\ forallb (char_ok f_icase r0) v = true).
Proof.
  intros Hr Ht Hsp v. unfold v, extract_field.
  destruct (search f_icase _ sec) as [[[c st] s']|] eqn:E; [|by left]. right.
  apply search_some in E as (_ & l & Hm).
  assert (Hin : In (c, s') (m f_icase (field_pattern label (Plus r0) tail) st))
    by (rewrite Hm; by left).
  destruct (in_field _ _ _ _ _ _ _ Hr Ht Hin) as (y & p & -> & Hy & Hp).
  rewrite group_single, nospace_strip.
  - split; [done|]. simpl. by rewrite Hy, Hp.
  - simpl. rewrite (Hsp y Hy). simpl. apply forallb_forall. intros x Hx.
    rewrite forallb_forall in Hp. by rewrite (Hsp x (Hp x Hx)).
Qed.

Lemma forallb_not_nl (p : N -> bool) v : p nl = false -> forallb p v = true -> ~ In nl v.
Proof. intros Hn Hv Hin. rewrite forallb_forall in Hv. specialize (Hv nl Hin). congruence. Qed.

Lemma forallb_strip (p : N -> bool) v :
  (forall c, p c = true -> is_space c = false) -> forallb p v = true -> strip v = v.
Proof.
  intros Hp Hv. apply nospace_strip. apply forallb_forall. intros x Hx.
  rewrite forallb_forall in Hv. by rewrite (Hp x (Hv x Hx)).
Qed.

(** The shape of the values of a parsed record. *)
Lemma record_values_shape (log_text : text) (r : record) (k v : text) :
  In r (get_storage_log log_text) -> In (k, v) r ->
  v = NA \/ (strip v = v /\ ~ In nl v /\ (v <> [] \/ k = L_WRITES)).
Proof.
  intros Hr Hkv. destruct (get_storage_log_records _ _ Hr) as (sec & -> & Hsec & _).
  unfold disk_info in Hkv. cbn [In] in Hkv.
  assert (Hdot : forall label,
    let v := extract_field sec (field_pattern label (Plus Dot) Empty) in
    v = NA \/ (strip v = v /\ ~ In nl v /\ (v <> [] \/ k = L_WRITES))).
  { intros label. destruct (extract_dot_ok sec label Hsec) as [E|(E1 & E2 & E3)]; [by left|].
    right. auto. }
  assert (Hdig : forall label u',
    let v := extract_field sec (field_pattern label (Plus digit) (Cat (Star true ws) (lits u'))) in
    v = NA \/ (strip v = v /\ ~ In nl v /\ (v <> [] \/ k = L_WRITES))).
  { intros label u' v'.
    destruct (extract_plus_ok sec label digit (Cat (Star true ws) (lits u')))
      as [E|(E1 & E2)]; [done | simpl; apply has_group_lits | apply digit_not_space | by left |].
    right. split; [by apply (forallb_strip is_digit); [apply digit_not_space|] |].
    split; [by apply (forallb_not_nl is_digit) | by left]. }
  destruct Hkv as [E|[E|[E|[E|[E|[E|[E|[]]]]]]]]; injection E as <- <-.
  - apply Hdot.
  - apply Hdot.
  - apply Hdot.
  - apply Hdig.
  - apply Hdig.
  - destruct (extract_plus_ok sec (u "Host Writes") (Cls writes_char) (Cat (Star true ws) (lits (u "GB"))))
      as [E|(E1 & E2)]; [done | by simpl; rewrite ?has_group_lits | apply writes_char_not_space |..];
      fold WRITES_RE in *.
    + rewrite E. by left.
    + destruct (extract_field sec WRITES_RE) as [|a w] eqn:Ew; [by left|].
      right. rewrite <- Ew.
      assert (Hw : forallb writes_char (remove_commas (extract_field sec WRITES_RE)) = true).
      { unfold remove_commas. apply forallb_forall. intros x Hx.
        apply list_elem_of_In, list_elem_of_filter in Hx as [_ Hx].
        apply list_elem_of_In in Hx. rewrite forallb_forall in E2. rewrite Ew in Hx. exact (E2 x Hx). }
      split; [by apply (forallb_strip writes_char); [apply writes_char_not_space|]|].
      split; [by apply (forallb_not_nl writes_char) | by right].
  - apply Hdot.
Qed.

(** ** Round trip of the persisted format *)

Lemma m_cat_hd fl r1 r2 s c1 s1 l1 c2 s2 l2 :
  m fl r1 s = (c1, s1) :: l1 -> m fl r2 s1 = (c2, s2) :: l2 ->
  exists l, m fl (Cat r1 r2) s = (c1 ++ c2, s2) :: l.
Proof.
  intros H1 H2. rewrite m_cat, H1, flat_map_cons'. cbv beta iota. rewrite H2.
  simpl. eauto.
Qed.

Lemma m_star_hd_step fl r0 s c1 s1 l1 c2 s2 l2 :
  m fl r0 s = (c1, s1) :: l1 -> (length s1 < length s)%nat ->
  m fl (Star true r0) s1 = (c2, s2) :: l2 ->
  exists l, m fl (Star true r0) s = (c1 ++ c2, s2) :: l.
Proof.
  intros H1 Hl H2. rewrite m_star_unfold. cbv zeta. rewrite H1, flat_map_cons'.
  cbv beta iota. apply Nat.ltb_lt in Hl. rewrite Hl, H2. simpl. eauto.
Qed.

Lemma m_star_hd_stop fl r0 s : m fl r0 s = [] -> m fl (Star true r0) s = [([], s)].
Proof. intros H. rewrite m_star_unfold. cbv zeta. by rewrite H. Qed.

Lemma lits_match_app t s : lits_match noflags t (t ++ s) = Some s.
Proof. induction t as [|a t IH]; [done|]. simpl. by rewrite N.eqb_refl. Qed.

Lemma m_lits_hd t s : m noflags (lits t) (t ++ s) = [([], s)].
Proof. by rewrite m_lits, lits_match_app. Qed.

Lemma drop_while_app (p : N -> bool) a c s :
  forallb p a = true -> p c = false -> drop_while p (a ++ c :: s) = c :: s.
Proof.
  induction a as [|x a IH]; simpl; [by intros _ ->|].
  intros Ha Hc. apply andb_prop in Ha as [Hx Ha]. rewrite Hx. by apply IH.
Qed.

Lemma m_plus_hd fl r0 y s : single r0 = true -> char_ok fl r0 y = true ->
  exists l, m fl (Plus r0) (y :: s) = ([], drop_while (char_ok fl r0) s) :: l.
Proof.
  intros Hr Hy. rewrite m_plus_single, Hy by done. apply star1_hd.
Qed.

Lemma m_info_line_hd x s : x <> [] -> no_nl x = true ->
  exists c l, m noflags INFO_LINE (u "  " ++ x ++ [nl] ++ s) = (c, s) :: l.
Proof.
  intros Hx Hn. destruct x as [|y x]; [done|].
  simpl in Hn. apply andb_prop in Hn as [Hy Hn].
  unfold INFO_LINE, seq_re. cbn [fold_right].
  rewrite m_cat_lits, lits_match_app.
  destruct (m_plus_hd noflags Dot y (x ++ [nl] ++ s)) as [l1 H1]; [done|exact Hy|].
  rewrite (drop_while_app _ x nl s) in H1; [|exact Hn|reflexivity].
  assert (H2 : m noflags (Cat (Lit nl) Empty) (nl :: s) = [([], s)]) by reflexivity.
  destruct (m_cat_hd _ _ _ _ _ _ _ _ _ _ H1 H2) as [l Hl]. eauto.
Qed.

Lemma m_info_star_hd xs s :
  Forall (fun x => x <> [] /\ no_nl x = true) xs -> m noflags INFO_LINE s = [] ->
  exists c l, m noflags (Star true INFO_LINE) (info_lines xs ++ s) = (c, s) :: l.
Proof.
  intros Hxs Hs. induction Hxs as [|x xs [Hx Hn] _ IH].
  - rewrite m_star_hd_stop by done. eauto.
  - destruct IH as (c2 & l2 & H2).
    destruct (m_info_line_hd x (info_lines xs ++ s) Hx Hn) as (c1 & l1 & H1).
    assert (E : info_lines (x :: xs) ++ s = u "  " ++ x ++ [nl] ++ (info_lines xs ++ s)).
    { unfold info_lines. simpl. by rewrite <- !app_assoc. }
    rewrite E. destruct (m_star_hd_step _ _ _ _ _ _ _ _ _ H1 ltac:(rewrite !length_app; simpl; lia) H2)
      as [l Hl]. eauto.
Qed.

Lemma dec_aux_ascii f n : Forall (fun c => (48 <= c < 58)%N) (dec_aux f n).
Proof.
  revert n. induction f as [|f IH]; intros n; cbn [dec_aux]; [constructor|].
  apply Forall_app. split.
  - destruct (Nat.eqb _ 0); [constructor|apply IH].
  - constructor; [|constructor]. pose proof (Nat.mod_upper_bound n 10). lia.
Qed.

Lemma dec_nonempty idx : exists d0 ds, dec idx = d0 :: ds.
Proof.
  unfold dec. cbn [dec_aux]. destruct (Nat.eqb _ 0); simpl; [eauto|].
  destruct (dec_aux idx _); simpl; eauto.
Qed.

Lemma ascii_digit c : (48 <= c < 58)%N -> is_digit c = true.
Proof.
  intros Hc. unfold is_digit, nd_ranges. cbn [existsb].
  apply orb_true_intro. left. apply andb_true_intro. split; [apply N.leb_le|apply N.ltb_lt]; lia.
Qed.

Lemma dec_digits idx : forallb is_digit (dec idx) = true.
Proof.
  apply forallb_forall. intros c Hc. apply ascii_digit.
  pose proof (dec_aux_ascii (S idx) idx) as H. rewrite Forall_forall in H.
  apply H. by apply list_elem_of_In.
Qed.

Lemma m_info_line_nl R : m noflags INFO_LINE (nl :: R) = [].
Proof. reflexivity. Qed.

Lemma m_info_line_nil : m noflags INFO_LINE [] = [].
Proof. reflexivity. Qed.

Lemma drop_while_stop (p : N -> bool) c s : p c = false -> drop_while p (c :: s) = c :: s.
Proof. simpl. by intros ->. Qed.

Lemma m_disk_hd idx xs R : xs <> [] ->
  Forall (fun x => x <> [] /\ no_nl x = true) xs -> m noflags INFO_LINE R = [] ->
  exists c l, m noflags DISK_INFO_PATTERN
    (u_disk ++ u " " ++ dec idx ++ [colon; nl] ++ info_lines xs ++ R) = (c, R) :: l.
Proof.
  intros Hne Hxs HR. destruct xs as [|x xs]; [done|].
  pose proof (dec_digits idx) as Hd. destruct (dec_nonempty idx) as (d0 & ds & Hdec).
  rewrite Hdec in *. simpl in Hd. apply andb_prop in Hd as [Hd0 Hds].
  inversion Hxs as [|? ? [Hx Hn] Hxs']; subst.
  (* the tail: [:\n] then the info lines *)
  destruct (m_info_line_hd x (info_lines xs ++ R) Hx Hn) as (c1 & l1 & H1).
  destruct (m_info_star_hd xs R Hxs' HR) as (c2 & l2 & H2).
  assert (E : info_lines (x :: xs) ++ R = u "  " ++ x ++ [nl] ++ (info_lines xs ++ R)).
  { unfold info_lines. simpl. by rewrite <- !app_assoc. }
  destruct (m_cat_hd _ _ _ _ _ _ _ _ _ _ H1 H2) as [l3 H3]. rewrite <- E in H3.
  assert (H4 : m noflags Empty R = [([], R)]) by reflexivity.
  destruct (m_cat_hd _ _ _ _ _ _ _ _ _ _ H3 H4) as [l5 H5].
  pose proof (m_lits_hd [colon; nl] (info_lines (x :: xs) ++ R)) as H6.
  destruct (m_cat_hd _ _ _ _ _ _ _ _ _ _ H6 H5) as [l7 H7].
  (* \d+ *)
  destruct (m_plus_hd noflags digit d0 (ds ++ [colon; nl] ++ info_lines (x :: xs) ++ R))
    as [l8 H8]; [done|exact Hd0|].
  cbn [app] in H8. rewrite (drop_while_app _ ds colon) in H8; [|exact Hds|reflexivity].
  destruct (m_cat_hd _ _ _ _ _ _ _ _ _ _ H8 H7) as [l9 H9].
  (* \s+ *)
  destruct (m_plus_hd noflags ws 32 ((d0 :: ds) ++ [colon; nl] ++ info_lines (x :: xs) ++ R))
    as [l10 H10]; [done|reflexivity|].
  cbn [app] in H10. rewrite drop_while_stop in H10; [|by apply digit_not_space].
  destruct (m_cat_hd _ _ _ _ _ _ _ _ _ _ H10 H9) as [l11 H11].
  (* ディスク *)
  pose proof (m_lits_hd u_disk (u " " ++ (d0 :: ds) ++ [colon; nl] ++ info_lines (x :: xs) ++ R))
    as H12.
  destruct (m_cat_hd _ _ _ _ _ _ _ _ _ _ H12 H11) as [l13 H13].
  unfold DISK_INFO_PATTERN, seq_re. cbn [fold_right].
  cbn [app] in H13 |- *. eauto.
Qed.

Lemma search_hd fl r s c s' l : m fl r s = (c, s') :: l -> search fl r s = Some (c, s, s').
Proof. intros H. destruct s; cbn [search]; by rewrite H. Qed.

Lemma findall_aux_skip fl r n a s : m fl r (a :: s) = [] ->
  findall_aux fl r n (a :: s) = findall_aux fl r n s.
Proof. intros H. destruct n; [done|]. cbn [findall_aux search]. by rewrite H. Qed.

Lemma findall_aux_nil n : findall_aux noflags DISK_INFO_PATTERN n [] = [].
Proof. by destruct n. Qed.

Lemma m_disk_nl R : m noflags DISK_INFO_PATTERN (nl :: R) = [].
Proof. reflexivity. Qed.

Lemma kv_lines_info d :
  concat (map (fun '(k, v) => kv_line k v) d) =
  info_lines (map (fun '(k, v) => k ++ [colon; sp] ++ v) d).
Proof.
  induction d as [|[k v] d IH]; [done|]. unfold info_lines in *. cbn [map concat].
  rewrite IH. unfold kv_line. by rewrite <- !app_assoc.
Qed.

Lemma no_nl_app a b : no_nl (a ++ b) = no_nl a && no_nl b.
Proof. apply forallb_app. Qed.

Lemma findall_report idx ds n : (length ds <= n)%nat -> Forall good_record ds ->
  map snd (findall_aux noflags DISK_INFO_PATTERN n (report_text idx ds)) = block_texts idx ds.
Proof.
  revert idx n. induction ds as [|d ds IH]; intros idx n Hn Hds.
  - simpl. by rewrite findall_aux_nil.
  - destruct n as [|n]; [simpl in Hn; lia|].
    inversion Hds as [|? ? [Hne Hd] Hds']; subst.
    set (rest := report_text (S idx) ds).
    assert (E : report_text idx (d :: ds) =
      u_disk ++ u " " ++ dec idx ++ [colon; nl] ++
      info_lines (map (fun '(k, v) => k ++ [colon; sp] ++ v) d) ++ (nl :: rest)).
    { cbn [report_text]. unfold record_text, hdr. rewrite kv_lines_info.
      fold rest. by rewrite <- !app_assoc. }
    destruct (m_disk_hd idx (map (fun '(k, v) => k ++ [colon; sp] ++ v) d) (nl :: rest))
      as (c & l & Hm).
    { destruct d; [done|]. simpl. destruct p. discriminate. }
    { apply Forall_forall. intros x Hx. apply list_elem_of_In, in_map_iff in Hx.
      destruct Hx as ([k v] & <- & Hkv). rewrite Forall_forall in Hd.
      specialize (Hd (k, v) ltac:(by apply list_elem_of_In)). destruct Hd as [Hk Hv].
      split; [by destruct k|]. rewrite !no_nl_app, Hk, Hv. reflexivity. }
    { reflexivity. }
    rewrite E. cbn [findall_aux]. rewrite (search_hd _ _ _ _ _ _ Hm).
    rewrite <- E. set (s := report_text idx (d :: ds)).
    assert (Hs : s = record_text idx d ++ nl :: rest).
    { unfold s. cbn [report_text]. reflexivity. }
    assert (Hl : (length (nl :: rest) <? length s)%nat = true).
    { apply Nat.ltb_lt. rewrite Hs, length_app. unfold record_text, hdr.
      rewrite !length_app. simpl. lia. }
    rewrite Hl. cbn [map snd]. rewrite findall_aux_skip by apply m_disk_nl.
    rewrite Hs, firstn_consumed. cbn [block_texts]. f_equal. apply IH; [simpl in Hn; lia|done].
Qed.

Lemma parse_block_lines disk : parse_block disk = fold_left parse_line (split_nl (strip disk)) [].
Proof. reflexivity. Qed.

Lemma labels_ok : forallb label_ok field_labels = true.
Proof. vm_compute. reflexivity. Qed.

Lemma kv_line_body k v : kv_line k v = kv_body k v ++ [nl].
Proof. unfold kv_line, kv_body. by rewrite <- !app_assoc. Qed.

Lemma body_shift d : [nl] ++ concat (map (fun '(k, v) => kv_line k v) d) = body d ++ [nl].
Proof.
  induction d as [|[k v] d IH]; [done|]. unfold body in *. cbn [map concat].
  rewrite kv_line_body. cbn [app]. rewrite <- !app_assoc, <- IH. reflexivity.
Qed.

Lemma record_text_body idx d : record_text idx d = hdr0 idx ++ body d ++ [nl].
Proof.
  unfold record_text, hdr, hdr0. rewrite <- !app_assoc.
  change ([colon; nl]) with ([colon] ++ [nl]). rewrite <- !app_assoc.
  by rewrite body_shift.
Qed.

Lemma hd_ok_app a b : a <> [] -> hd_ok a = true -> hd_ok (a ++ b) = true.
Proof. by destruct a. Qed.

Lemma last_ok_app a b : b <> [] -> last_ok b = true -> last_ok (a ++ b) = true.
Proof.
  unfold last_ok. rewrite rev_app_distr. intros Hb.
  destruct (rev b) eqn:E; [|done]. apply (f_equal (@rev N)) in E.
  rewrite rev_involutive in E. by subst.
Qed.

Lemma rstrip_snoc_space t c : is_space c = true -> rstrip (t ++ [c]) = rstrip t.
Proof. intros H. unfold rstrip. rewrite rev_app_distr. simpl. by rewrite H. Qed.

Lemma nospace_last_ok t : forallb (fun c => negb (is_space c)) t = true -> last_ok t = true.
Proof.
  intros H. unfold last_ok. apply nospace_hd_ok. apply forallb_forall. intros x Hx.
  rewrite forallb_forall in H. apply H. by apply in_rev.
Qed.

Lemma split_colon_app a b : forallb not_colon a = true -> split_colon (a ++ colon :: b) = (a, b).
Proof.
  induction a as [|x a IH]; simpl; [done|].
  intros H. apply andb_prop in H as [Hx Ha]. unfold not_colon in Hx.
  apply negb_true_iff in Hx. rewrite Hx, IH by done. done.
Qed.

Lemma starts_with_app p t : starts_with p (p ++ t) = true.
Proof. induction p as [|a p IH]; [done|]. simpl. by rewrite N.eqb_refl. Qed.

Lemma split_nl_ne t : split_nl t <> [].
Proof.
  induction t as [|c t IH]; simpl; [done|].
  destruct (c =? nl); [done|]. by destruct (split_nl t).
Qed.

Lemma split_nl_app a b : no_nl a = true ->
  split_nl (a ++ b) = match split_nl b with l :: ls => (a ++ l) :: ls | [] => [a] end.
Proof.
  induction a as [|x a IH]; simpl.
  - intros _. pose proof (split_nl_ne b). by destruct (split_nl b).
  - intros H. apply andb_prop in H as [Hx Ha]. apply negb_true_iff in Hx.
    rewrite Hx, IH by done. by destruct (split_nl b).
Qed.

Lemma split_nl_body a d : no_nl a = true ->
  Forall (fun '(k, v) => no_nl (kv_body k v) = true) d ->
  split_nl (a ++ body d) = a :: map (fun '(k, v) => kv_body k v) d.
Proof.
  revert a. induction d as [|[k v] d IH]; intros a Ha Hd.
  - unfold body. cbn [map concat]. rewrite split_nl_app by done. simpl. by rewrite app_nil_r.
  - inversion Hd as [|? ? Hkv Hd']; subst. unfold body. cbn [map concat].
    rewrite split_nl_app by done. simpl split_nl. fold (body d).
    rewrite IH by done. simpl. by rewrite app_nil_r.
Qed.

Lemma digits_ascii idx : forallb (fun c => (48 <=? c) && (c <? 58)) (dec idx) = true.
Proof.
  apply forallb_forall. intros c Hc.
  pose proof (dec_aux_ascii (S idx) idx) as H. rewrite Forall_forall in H.
  specialize (H c ltac:(by apply list_elem_of_In)).
  apply andb_true_intro. split; [apply N.leb_le|apply N.ltb_lt]; lia.
Qed.

Lemma forallb_ascii_digit (p : N -> bool) t :
  (forall c, (48 <= c < 58)%N -> p c = true) ->
  forallb (fun c => (48 <=? c) && (c <? 58)) t = true -> forallb p t = true.
Proof.
  intros Hp H. apply forallb_forall. intros c Hc. rewrite forallb_forall in H.
  specialize (H c Hc). apply andb_prop in H as [H1 H2].
  apply N.leb_le in H1. apply N.ltb_lt in H2. apply Hp. lia.
Qed.

Lemma parse_line_hdr idx : parse_line [] (hdr0 idx) = [].
Proof.
  pose proof (digits_ascii idx) as Hd. destruct (dec_nonempty idx) as (d0 & ds & Hdec).
  assert (Hnc : forallb not_colon (dec idx) = true).
  { apply (forallb_ascii_digit _ _); [|done]. intros c Hc. unfold not_colon.
    apply negb_true_iff, N.eqb_neq. unfold colon. lia. }
  assert (Hns : forallb (fun c => negb (is_space c)) (dec idx) = true).
  { apply (forallb_ascii_digit _ _); [|done]. intros c Hc.
    rewrite digit_not_space; [done|]. by apply ascii_digit. }
  assert (Hk : strip (u_disk ++ u " " ++ dec idx) = u_disk ++ u " " ++ dec idx).
  { apply strip_id; [done|]. rewrite app_assoc. apply last_ok_app; [by rewrite Hdec|].
    by apply nospace_last_ok. }
  unfold parse_line, hdr0.
  rewrite !existsb_app. simpl (existsb _ [colon]). rewrite ?N.eqb_refl, !orb_true_r.
  rewrite strip_id.
  - rewrite app_assoc, app_assoc, <- (app_assoc u_disk). rewrite split_colon_app.
    + by rewrite Hk, starts_with_app.
    + rewrite !forallb_app, Hnc. done.
  - reflexivity.
  - rewrite !app_assoc. apply last_ok_app; [discriminate|reflexivity].
Qed.

Lemma label_facts k : label_ok k = true ->
  k <> [] /\ hd_ok k = true /\ last_ok k = true /\ forallb not_colon k = true /\
  no_nl k = true /\ starts_with u_disk k = false.
Proof.
  unfold label_ok. intros H. repeat (apply andb_prop in H as [H ?]).
  destruct k; [done|]. repeat split; try done. by apply negb_true_iff.
Qed.

Lemma strip_sp_cons v : strip v = v -> strip (sp :: v) = v.
Proof. intros H. unfold strip. simpl. exact H. Qed.

Lemma parse_line_kv acc k v : label_ok k = true -> strip v = v ->
  parse_line acc (kv_body k v) = dict_set acc k v.
Proof.
  intros Hk Hv. destruct (label_facts k Hk) as (Hne & Hh & Hl & Hc & _ & Hs).
  assert (Hsk : strip k = k) by (by apply strip_id).
  unfold parse_line, kv_body.
  rewrite !existsb_app. simpl (existsb _ [colon; sp]). rewrite ?N.eqb_refl, ?orb_true_r. simpl orb.
  change (u "  ") with [sp; sp].
  unfold strip at 1. simpl lstrip. rewrite lstrip_id by (by apply hd_ok_app).
  destruct v as [|y v'].
  - change [colon; sp] with ([colon] ++ [sp]).
    rewrite app_assoc, rstrip_snoc_space by reflexivity.
    rewrite rstrip_id by (apply last_ok_app; done).
    rewrite split_colon_app by done. cbv beta iota. by rewrite Hsk, Hs.
  - rewrite rstrip_id.
    + rewrite split_colon_app by done. cbv beta iota. rewrite Hsk, Hs. f_equal.
      by apply strip_sp_cons.
    + change (colon :: sp :: y :: v') with ([colon; sp] ++ (y :: v')).
      apply last_ok_app; [done|]. apply last_ok_app; [done|].
      rewrite <- Hv. apply strip_last_ok.
Qed.

Lemma body_app d1 d2 : body (d1 ++ d2) = body d1 ++ body d2.
Proof. unfold body. by rewrite map_app, concat_app. Qed.

Lemma no_nl_dec idx : no_nl (dec idx) = true.
Proof.
  apply (forallb_ascii_digit _ _); [|apply digits_ascii].
  intros c Hc. apply negb_true_iff, N.eqb_neq. unfold nl. lia.
Qed.

Lemma parse_record idx v1 v2 v3 v4 v5 v6 v7 :
  Forall (fun v => strip v = v /\ no_nl v = true) [v1; v2; v3; v4; v5; v6; v7] ->
  v7 <> [] ->
  parse_block (record_text idx (std7 v1 v2 v3 v4 v5 v6 v7)) = std7 v1 v2 v3 v4 v5 v6 v7.
Proof.
  intros Hv H7.
  inversion Hv as [|? ? [S1 N1] Hv1]; inversion Hv1 as [|? ? [S2 N2] Hv2];
  inversion Hv2 as [|? ? [S3 N3] Hv3]; inversion Hv3 as [|? ? [S4 N4] Hv4];
  inversion Hv4 as [|? ? [S5 N5] Hv5]; inversion Hv5 as [|? ? [S6 N6] Hv6];
  inversion Hv6 as [|? ? [S7 N7] _]; subst.
  set (d := std7 v1 v2 v3 v4 v5 v6 v7).
  assert (Hb : body d <> [] /\ last_ok (body d) = true).
  { change d with ([(L_MODEL, v1); (L_SIZE, v2); (L_IFACE, v3); (L_HOURS, v4);
                    (L_COUNT, v5); (L_WRITES, v6)] ++ [(L_HEALTH, v7)]).
    rewrite body_app. split.
    - unfold body at 2. cbn [map concat]. destruct (body _); discriminate.
    - apply last_ok_app; [unfold body; cbn [map concat]; discriminate|].
      unfold body. cbn [map concat]. rewrite app_nil_r. unfold kv_body.
      change (nl :: u "  " ++ L_HEALTH ++ [colon; sp] ++ v7)
        with ([nl] ++ u "  " ++ L_HEALTH ++ [colon; sp] ++ v7).
      rewrite !app_assoc. apply last_ok_app; [done|]. rewrite <- S7. apply strip_last_ok. }
  destruct Hb as [Hb1 Hb2].
  rewrite parse_block_lines, record_text_body, app_assoc.
  assert (Hs : strip ((hdr0 idx ++ body d) ++ [nl]) = hdr0 idx ++ body d).
  { unfold strip. rewrite lstrip_id.
    - rewrite rstrip_snoc_space by reflexivity. apply rstrip_id. by apply last_ok_app.
    - apply hd_ok_app; [by destruct (hdr0 idx ++ body d) eqn:E; [destruct (hdr0 idx)|]|].
      apply hd_ok_app; [discriminate|reflexivity]. }
  rewrite Hs, split_nl_body.
  - cbn [fold_left]. rewrite parse_line_hdr. unfold d, std7. cbn [map fold_left].
    rewrite !parse_line_kv by first [reflexivity | assumption].
    vm_compute. reflexivity.
  - unfold hdr0. rewrite !no_nl_app, no_nl_dec. reflexivity.
  - unfold d, std7. repeat constructor; unfold kv_body; rewrite !no_nl_app;
      rewrite ?N1, ?N2, ?N3, ?N4, ?N5, ?N6, ?N7; reflexivity.
Qed.

Lemma extract_field_chars sec pat x : In x (extract_field sec pat) -> In x sec \/ In x NA.
Proof.
  unfold extract_field. destruct (search f_icase pat sec) as [[[c st] s']|] eqn:E; [|by right].
  intros Hx. left. apply search_some in E as (Hst & l & Hm).
  assert (Hin : In (c, s') (m f_icase pat st)) by (rewrite Hm; by left).
  destruct (m_sound _ _ _ _ _ Hin) as (_ & F & _).
  apply strip_incl in Hx. apply (group_incl _ _ _ F) in Hx. by apply (suffix_incl _ _ Hst).
Qed.

Lemma record_chars t r k v x : In r (get_storage_log t) -> In (k, v) r -> In x v ->
  In x t \/ In x NA.
Proof.
  intros Hr Hkv Hx. destruct (get_storage_log_records _ _ Hr) as (sec & -> & _ & Hsec).
  assert (G : forall pat, In x (extract_field sec pat) -> In x t \/ In x NA).
  { intros pat Hp. destruct (extract_field_chars _ _ _ Hp) as [H|H]; [left|right]; auto. }
  unfold disk_info in Hkv. cbn [In] in Hkv.
  destruct Hkv as [E|[E|[E|[E|[E|[E|[E|[]]]]]]]]; injection E as <- <-; try exact (G _ Hx).
  destruct (extract_field sec WRITES_RE) as [|a w] eqn:Ew; [right; exact Hx|].
  apply (G WRITES_RE). rewrite Ew. unfold remove_commas in Hx.
  apply list_elem_of_In, list_elem_of_filter in Hx as [_ Hx]. by apply list_elem_of_In.
Qed.

Lemma no_nl_of v : ~ In nl v -> no_nl v = true.
Proof.
  intros H. apply forallb_forall. intros c Hc. apply negb_true_iff, N.eqb_neq.
  intros ->. apply H. by apply list_elem_of_In.
Qed.

Lemma record_good t r : forallb ok_char t = true -> In r (get_storage_log t) ->
  exists v1 v2 v3 v4 v5 v6 v7, r = std7 v1 v2 v3 v4 v5 v6 v7 /\
    Forall good_value [v1; v2; v3; v4; v5; v6; v7] /\ v7 <> [].
Proof.
  intros Ht Hr.
  assert (G : forall k v, In (k, v) r -> good_value v /\ (v <> [] \/ k = L_WRITES)).
  { intros k v Hkv.
    assert (Hc : forallb ok_char v = true).
    { apply forallb_forall. intros x Hx.
      destruct (record_chars _ _ _ _ _ Hr Hkv Hx) as [H|H].
      - rewrite forallb_forall in Ht. by apply Ht.
      - unfold NA in H. cbn in H. destruct H as [<-|[<-|[<-|[]]]]; reflexivity. }
    destruct (record_values_shape _ _ _ _ Hr Hkv) as [->|(H1 & H2 & H3)].
    - split; [|by left]. split; [reflexivity|]. split; [reflexivity|]. exact Hc.
    - split; [|exact H3]. split; [exact H1|]. split; [by apply no_nl_of|exact Hc]. }
  destruct (get_storage_log_records _ _ Hr) as (sec & -> & _).
  do 7 eexists. split; [reflexivity|].
  unfold disk_info in G.
  split.
  - repeat apply List.Forall_cons; try apply List.Forall_nil;
      eapply proj1, G; cbn [In]; eauto 10.
  - destruct (G L_HEALTH (extract_field sec HEALTH_RE)) as [_ [H|H]]; [cbn [In]; auto 10|done|].
    discriminate H.
Qed.

(** Writing *)

Lemma set_files_files w : set_files (files w) w = w.
Proof. by destruct w. Qed.

Lemma files_set_files f w : files (set_files f w) = f.
Proof. reflexivity. Qed.

Lemma set_files_twice f g w : set_files f (set_files g w) = set_files f w.
Proof. reflexivity. Qed.

Lemma write_newlines_app a b : write_newlines (a ++ b) = write_newlines a ++ write_newlines b.
Proof. apply flat_map_app. Qed.

Lemma write_all_ok p ts : forall w old, files w !! p = Some (Utf8 old) ->
  existsb is_surrogate (concat ts) = false ->
  write_all p (map Some ts) w =
  (set_files (<[p := Utf8 (old ++ write_newlines (concat ts))]> (files w)) w, Ok tt).
Proof.
  induction ts as [|t ts IH]; intros w old Hp Hs.
  - cbn [map write_all concat]. unfold ret. rewrite app_nil_r.
    rewrite insert_id by done. by rewrite set_files_files.
  - cbn [map write_all concat] in *. rewrite existsb_app in Hs.
    apply orb_false_iff in Hs as [Hs1 Hs2].
    unfold bind, fwrite. rewrite Hs1, Hp.
    rewrite (IH _ (old ++ write_newlines t)) by first [done | rewrite files_set_files; apply lookup_insert_eq].
    rewrite set_files_twice, files_set_files, insert_insert_eq.
    by rewrite write_newlines_app, app_assoc.
Qed.

Lemma dict_get_std7 v1 v2 v3 v4 v5 v6 v7 :
  let d := std7 v1 v2 v3 v4 v5 v6 v7 in
  dict_get d L_MODEL = Some v1 /\ dict_get d L_SIZE = Some v2 /\
  dict_get d L_IFACE = Some v3 /\ dict_get d L_HOURS = Some v4 /\
  dict_get d L_COUNT = Some v5 /\ dict_get d L_WRITES = Some v6 /\
  dict_get d L_HEALTH = Some v7.
Proof. vm_compute. repeat split. Qed.

Lemma kv_line_nl k v : kv_line k v ++ [nl] = u "  " ++ k ++ [colon; sp] ++ v ++ [nl; nl].
Proof. unfold kv_line. by rewrite <- !app_assoc. Qed.

Lemma block_writes idx v1 v2 v3 v4 v5 v6 v7 :
  exists ts, disk_block_writes idx (std7 v1 v2 v3 v4 v5 v6 v7) = map Some ts /\
    concat ts = record_text idx (std7 v1 v2 v3 v4 v5 v6 v7) ++ [nl].
Proof.
  destruct (dict_get_std7 v1 v2 v3 v4 v5 v6 v7) as (G1 & G2 & G3 & G4 & G5 & G6 & G7).
  exists [hdr idx;
          u "  " ++ L_MODEL ++ [colon; sp] ++ v1 ++ [nl] ++ [];
          u "  " ++ L_SIZE ++ [colon; sp] ++ v2 ++ [nl] ++ [];
          u "  " ++ L_IFACE ++ [colon; sp] ++ v3 ++ [nl] ++ [];
          u "  " ++ L_HOURS ++ [colon; sp] ++ v4 ++ [nl] ++ [];
          u "  " ++ L_COUNT ++ [colon; sp] ++ v5 ++ [nl] ++ [];
          u "  " ++ L_WRITES ++ [colon; sp] ++ v6 ++ [nl] ++ [];
          u "  " ++ L_HEALTH ++ [colon; sp] ++ v7 ++ [nl] ++ [nl]].
  split.
  - unfold disk_block_writes. cbn [map]. rewrite G1, G2, G3, G4, G5, G6, G7.
    reflexivity.
  - unfold record_text, std7, kv_line. cbn [map concat]. rewrite !app_nil_r, <- !app_assoc.
    reflexivity.
Qed.

Lemma report_writes_ok idx ds : Forall std_shape ds ->
  exists ts, report_writes idx ds = map Some ts /\ concat ts = report_text idx ds.
Proof.
  revert idx. induction ds as [|d ds IH]; intros idx Hds; [by exists []|].
  inversion Hds as [|? ? (v1 & v2 & v3 & v4 & v5 & v6 & v7 & ->) Hds']; subst.
  destruct (block_writes idx v1 v2 v3 v4 v5 v6 v7) as (ts1 & H1 & C1).
  destruct (IH (S idx) Hds') as (ts2 & H2 & C2).
  exists (ts1 ++ ts2). cbn [report_writes report_text]. rewrite H1, H2, map_app.
  split; [done|]. by rewrite concat_app, C1, C2, <- app_assoc.
Qed.

Lemma read_write t : forallb (fun c => negb (c =? cr)) t = true ->
  read_newlines (write_newlines t) = t.
Proof.
  induction t as [|c t IH]; [done|]. cbn [forallb]. intros H.
  apply andb_prop in H as [Hc Ht]. unfold write_newlines. cbn [flat_map].
  fold (write_newlines t). destruct (c =? nl) eqn:E.
  - apply N.eqb_eq in E as ->. simpl. by rewrite IH.
  - cbn [app]. simpl. apply negb_true_iff in Hc. rewrite Hc. by rewrite IH.
Qed.

Lemma ok_text_split t : forallb ok_char t = true ->
  existsb is_surrogate t = false /\ forallb (fun c => negb (c =? cr)) t = true.
Proof.
  induction t as [|c t IH]; [done|]. cbn [forallb existsb].
  intros H. apply andb_prop in H as [Hc Ht]. unfold ok_char in Hc.
  apply andb_prop in Hc as [Hc1 Hc2]. apply negb_true_iff in Hc2.
  destruct (IH Ht) as [I1 I2]. rewrite Hc1, Hc2, I1, I2. done.
Qed.

Lemma ok_dec idx : forallb ok_char (dec idx) = true.
Proof.
  apply (forallb_ascii_digit _ _); [|apply digits_ascii].
  intros c Hc. unfold ok_char, is_surrogate, cr.
  apply andb_true_intro. split; apply negb_true_iff.
  - apply N.eqb_neq. lia.
  - apply andb_false_iff. left. apply N.leb_gt. lia.
Qed.

Ltac split_good Hv :=
  let S1 := fresh "S" in let N1 := fresh "N" in let C1 := fresh "C" in
  let Hv' := fresh "Hv" in
  inversion Hv as [|? ? [S1 [N1 C1]] Hv']; subst; clear Hv;
  try split_good Hv'.

Lemma report_text_ok idx ds : Forall std_ok ds -> forallb ok_char (report_text idx ds) = true.
Proof.
  revert idx. induction ds as [|d ds IH]; intros idx Hds; [done|].
  inversion Hds as [|? ? (v1 & v2 & v3 & v4 & v5 & v6 & v7 & -> & Hv & _) Hds']; subst.
  split_good Hv.
  cbn [report_text]. unfold record_text, std7, hdr. cbn [map concat]. unfold kv_line.
  rewrite !forallb_app, ok_dec, C, C0, C1, C2, C3, C4, C5, IH by done. reflexivity.
Qed.

Lemma report_text_length idx ds : (length ds <= length (report_text idx ds))%nat.
Proof.
  revert idx. induction ds as [|d ds IH]; intros idx; [done|]. cbn [report_text length].
  rewrite !length_app. specialize (IH (S idx)). simpl. lia.
Qed.

Lemma std_ok_good d : std_ok d -> good_record d.
Proof.
  intros (v1 & v2 & v3 & v4 & v5 & v6 & v7 & -> & Hv & _). split; [discriminate|].
  split_good Hv.
  repeat apply List.Forall_cons; try apply List.Forall_nil; split; try reflexivity; assumption.
Qed.

Lemma parse_blocks idx ds : Forall std_ok ds -> map parse_block (block_texts idx ds) = ds.
Proof.
  revert idx. induction ds as [|d ds IH]; intros idx Hds; [done|].
  inversion Hds as [|? ? (v1 & v2 & v3 & v4 & v5 & v6 & v7 & -> & Hv & H7) Hds']; subst.
  cbn [block_texts map]. rewrite IH by done. f_equal. apply parse_record; [|done].
  eapply Forall_impl; [exact Hv|]. intros v (? & ? & _). done.
Qed.

Lemma parse_report ds : Forall std_ok ds -> parse_storage_info (report_text 1 ds) = ds.
Proof.
  intros Hds. unfold parse_storage_info, findall.
  transitivity (map parse_block (map snd
    (findall_aux noflags DISK_INFO_PATTERN (S (length (report_text 1 ds))) (report_text 1 ds)))).
  - rewrite map_map. apply map_ext. by intros [c t].
  - rewrite findall_report; [by apply parse_blocks| |].
    + pose proof (report_text_length 1 ds). lia.
    + eapply Forall_impl; [exact Hds|]. apply std_ok_good.
Qed.

Lemma save_ok ds p w : Forall std_ok ds -> p ∉ readonly w -> p ∉ dirs w ->
  save_storage_info ds p w =
  (set_files (<[p := Utf8 (write_newlines (report_text 1 ds))]> (files w)) w, Ok tt).
Proof.
  intros Hds Hr Hd.
  destruct (report_writes_ok 1 ds) as (ts & Hts & Hcat).
  { eapply Forall_impl; [exact Hds|]. intros d (v1 & v2 & v3 & v4 & v5 & v6 & v7 & -> & _).
    by do 7 eexists. }
  destruct (ok_text_split _ (report_text_ok 1 ds Hds)) as [Hsur _].
  unfold save_storage_info, try_except, bind, open_w.
  rewrite (bool_decide_eq_false_2 (p ∈ readonly w)), (bool_decide_eq_false_2 (p ∈ dirs w))
    by assumption. cbn [orb].
  rewrite Hts, (write_all_ok p ts _ []).
  - rewrite set_files_twice, files_set_files, insert_insert_eq, Hcat. reflexivity.
  - rewrite files_set_files. apply lookup_insert_eq.
  - by rewrite Hcat.
Qed.

Lemma get_storage_log_ok t : forallb ok_char t = true -> Forall std_ok (get_storage_log t).
Proof.
  intros Ht. apply List.Forall_forall. intros r Hr. exact (record_good t r Ht Hr).
Qed.

(** C4 (amended): for every report produced by [get_storage_log] from a raw
    text with no carriage return and no lone surrogate, writing it with
    [save_storage_info] into a file of the log folder that can be opened for
    writing, and reading it back with [get_storage_info], gives back exactly
    the same records: the same labels and values in the same order. *)
Theorem save_read_roundtrip (w : world) (log_text name : text) :
  forallb ok_char log_text = true ->
  join (log_folder (base w)) name ∉ readonly w ->
  join (log_folder (base w)) name ∉ dirs w ->
  snd (get_storage_info name
         (fst (save_storage_info (get_storage_log log_text) (join (log_folder (base w)) name) w)))
  = Ok (Some (get_storage_log log_text)).
Proof.
  intros Ht Hr Hd. pose proof (get_storage_log_ok _ Ht) as Hds.
  set (ds := get_storage_log log_text) in *. set (p := join (log_folder (base w)) name) in *.
  rewrite save_ok by done. cbn [fst].
  set (T := report_text 1 ds).
  destruct (ok_text_split _ (report_text_ok 1 ds Hds)) as [_ Hcr].
  set (W := set_files (<[p := Utf8 (write_newlines T)]> (files w)) w).
  assert (HB : base W = base w) by reflexivity.
  assert (HF : files W !! p = Some (Utf8 (write_newlines T))) by apply lookup_insert_eq.
  unfold get_storage_info, bind, get_world, path_exists, try_except, open_r, fread, ret.
  rewrite HB. fold p.
  repeat first [ rewrite HF
               | rewrite (bool_decide_eq_true_2 (is_Some (Some (Utf8 (write_newlines T))))) by done
               | progress cbn [orb negb]
               | progress cbv beta iota zeta ].
  cbn [orb negb snd].
  rewrite read_write by exact Hcr. unfold T. by rewrite parse_report.
Qed.


(** ** C4: the round trip fails on a value holding a carriage return *)

(** A Model value "A\rB" is parsed as such, written as such, and read back
    with universal newlines as two lines, so the report read back holds the
    single record [Model: "A"]. *)
Lemma roundtrip_cr_cex :
  let w := sample_world NotUtf8 ∅ in
  let p := join (log_folder (base w)) (u "r.txt") in
  get_storage_log cr_model_log
    = [zip field_labels (<[0%nat := u "A" ++ [cr] ++ u "B"]> std_values)] /\
  snd (get_storage_info (u "r.txt")
         (fst (save_storage_info (get_storage_log cr_model_log) p w)))
    = Ok (Some [[(L_MODEL, u "A")]]).
Proof. intros w p. split; vm_compute; reflexivity. Qed.

Lemma save_read_roundtrip_witness :
  let w := sample_world NotUtf8 ∅ in
  let name := u "storage_info_log.txt" in
  forallb ok_char (sample_log plain_hours_line) = true /\
  (join (log_folder (base w)) name ∉ readonly w) /\
  (join (log_folder (base w)) name ∉ dirs w) /\
  snd (get_storage_info name
         (fst (save_storage_info (get_storage_log (sample_log plain_hours_line))
                 (join (log_folder (base w)) name) w)))
  = Ok (Some (get_storage_log (sample_log plain_hours_line))).
Proof.
  intros w name.
  assert (H1 : forallb ok_char (sample_log plain_hours_line) = true) by (vm_compute; reflexivity).
  assert (H2 : join (log_folder (base w)) name ∉ readonly w) by apply not_elem_of_empty.
  assert (H3 : join (log_folder (base w)) name ∉ dirs w) by apply not_elem_of_empty.
  split; [exact H1|]. split; [exact H2|]. split; [exact H3|].
  exact (save_read_roundtrip w (sample_log plain_hours_line) name H1 H2 H3).
Defined.

(** ** Field patterns in a block of field lines *)

(** Where a field pattern can start *)


















(** A block of field lines *)








































(** ** C6: the seven fields of a record *)




(** ** C10: the shape of the values *)

(** C10 (amended): every value of every record returned by [get_storage_log]
    is "N/A", or has no leading or trailing whitespace and no '\n'; it is
    non-empty unless the field is Host Writes. *)
Theorem parse_values_shape (log_text : text) (r : list (text * text)) (k v : text) :
  In r (get_storage_log log_text) -> In (k, v) r ->
  v = NA \/ (strip v = v /\ ~ In nl v /\ (v <> [] \/ k = L_WRITES)).
Proof. exact (record_values_shape log_text r k v). Qed.

Lemma parse_values_shape_witness :
  In (zip field_labels std_values) (get_storage_log (sample_log plain_hours_line)) /\
  In (L_MODEL, u "Samsung SSD 860") (zip field_labels std_values) /\
  (u "Samsung SSD 860" = NA \/
   (strip (u "Samsung SSD 860") = u "Samsung SSD 860" /\ ~ In nl (u "Samsung SSD 860") /\
    (u "Samsung SSD 860" <> [] \/ L_MODEL = L_WRITES))).
Proof.
  assert (H1 : In (zip field_labels std_values) (get_storage_log (sample_log plain_hours_line)))
    by (vm_compute; left; reflexivity).
  assert (H2 : In (L_MODEL, u "Samsung SSD 860") (zip field_labels std_values))
    by (vm_compute; left; reflexivity).
  split; [exact H1|]. split; [exact H2|].
  exact (parse_values_shape _ _ _ _ H1 H2).
Defined.

(** A Host Writes line whose digits are only commas gives the empty value. *)
Lemma writes_commas_cex :
  get_storage_log comma_writes_log = [zip field_labels (<[5%nat := []]> std_values)].
Proof. vm_compute. reflexivity. Qed.

(** ** Further properties of the module *)

Lemma ci_fold_colon x : ci_fold x = ci_fold colon -> x = colon.
Proof.
  unfold ci_fold, colon. cbn.
  destruct ((65 <=? x) && (x <=? 90)) eqn:E1.
  - apply andb_true_iff in E1 as [E1 _]. apply N.leb_le in E1. lia.
  - destruct ((x =? 304) || (x =? 305)); [discriminate|].
    destruct (x =? 383); [discriminate|]. destruct (x =? 8490); [discriminate|]. done.
Qed.

Lemma field_needs_colon fl label cap tail s c s' :
  In (c, s') (m fl (field_pattern label cap tail) s) -> In colon s.
Proof.
  intros H. unfold field_pattern, seq_re in H. cbn [fold_right] in H.
  apply in_m_cat in H as (c1 & s1 & c2 & H1 & H & _).
  apply in_m_cat in H as (c3 & s3 & c4 & H3 & H & _).
  apply in_m_cat in H as (c5 & s5 & c6 & H5 & _ & _).
  destruct (m_sound _ _ _ _ _ H1) as ([p1 ->] & _).
  destruct (m_sound _ _ _ _ _ H3) as ([p3 ->] & _).
  rewrite m_single in H5 by done. destruct s3 as [|x s3]; [done|].
  destruct (char_ok fl (Lit colon) x) eqn:Ex; [|done].
  assert (x = colon).
  { simpl in Ex. destruct (IGNORECASE fl); apply N.eqb_eq in Ex; [by apply ci_fold_colon|done]. }
  subst x. apply in_or_app. right. apply in_or_app. right. by left.
Qed.

Lemma extract_no_colon sec label cap tail :
  ~ In colon sec -> extract_field sec (field_pattern label cap tail) = NA.
Proof.
  intros Hc. unfold extract_field.
  destruct (search f_icase _ sec) as [[[c st] s']|] eqn:E; [|done].
  apply search_some in E as (Hst & l & Hm).
  assert (Hin : In (c, s') (m f_icase (field_pattern label cap tail) st)) by (rewrite Hm; by left).
  exfalso. apply Hc. apply (suffix_incl _ _ Hst). exact (field_needs_colon _ _ _ _ _ _ _ Hin).
Qed.

(** [extract_field]: every field pattern of [get_storage_log] has a literal
    ':' after its label, so a detail section without ':' gives "N/A" for all
    seven fields. *)
Theorem colonless_section_all_na (sec : text) :
  ~ In colon sec -> disk_info sec = zip field_labels (repeat NA 7).
Proof.
  intros Hc. unfold disk_info, MODEL_RE, DISK_SIZE_RE, INTERFACE_RE, HOURS_RE, COUNT_RE,
    WRITES_RE, HEALTH_RE.
  rewrite !extract_no_colon by done. reflexivity.
Qed.

(** The Power On Hours and Power On Count values of a record returned by
    [get_storage_log] are "N/A" or a non-empty string of decimal digits
    (any Unicode decimal digit, which is what \d matches without re.ASCII). *)
Theorem counter_values_digits (log_text : text) (r : record) (k v : text) :
  In r (get_storage_log log_text) -> In (k, v) r -> k = L_HOURS \/ k = L_COUNT ->
  v = NA \/ (v <> [] /\ forallb is_digit v = true).
Proof.
  intros Hr Hkv Hk. destruct (get_storage_log_records _ _ Hr) as (sec & -> & _).
  assert (Hdig : forall label u',
    let v := extract_field sec (field_pattern label (Plus digit) (Cat (Star true ws) (lits u'))) in
    v = NA \/ (v <> [] /\ forallb is_digit v = true)).
  { intros label u' v'.
    destruct (extract_plus_ok sec label digit (Cat (Star true ws) (lits u')))
      as [E|(E1 & E2)]; [done | simpl; apply has_group_lits | apply digit_not_space | by left |].
    right. split; [done|]. exact E2. }
  unfold disk_info in Hkv. cbn [In] in Hkv.
  destruct Hkv as [E|[E|[E|[E|[E|[E|[E|[]]]]]]]]; injection E as <- <-;
    try (exfalso; vm_compute in Hk; destruct Hk as [Hk|Hk]; discriminate Hk).
  - apply Hdig.
  - apply Hdig.
Qed.

(** The Host Writes value of a record returned by [get_storage_log] is "N/A"
    or made of decimal digits (any Unicode decimal digit, as \d matches
    without re.ASCII) and '.' only, the commas being removed. *)
Theorem writes_value_chars (log_text : text) (r : record) (v : text) :
  In r (get_storage_log log_text) -> In (L_WRITES, v) r ->
  v = NA \/ forallb (fun c => is_digit c || (c =? 46)) v = true.
Proof.
  intros Hr Hkv. destruct (get_storage_log_records _ _ Hr) as (sec & -> & _).
  unfold disk_info in Hkv. cbn [In] in Hkv.
  destruct Hkv as [E|[E|[E|[E|[E|[E|[E|[]]]]]]]]; apply pair_equal_spec in E as [Ek <-];
    try (exfalso; vm_compute in Ek; discriminate Ek).
  destruct (extract_plus_ok sec (u "Host Writes") (Cls writes_char) (Cat (Star true ws) (lits (u "GB"))))
    as [E|(E1 & E2)]; [done | by simpl; rewrite ?has_group_lits | apply writes_char_not_space |..];
    fold WRITES_RE in *.
  - rewrite E. by left.
  - destruct (extract_field sec WRITES_RE) as [|a w] eqn:Ew; [by left|].
    right. rewrite <- Ew. unfold remove_commas. apply forallb_forall. intros x Hx.
    apply list_elem_of_In, list_elem_of_filter in Hx as [Hn Hx].
    apply list_elem_of_In in Hx. rewrite Ew in Hx. rewrite forallb_forall in E2. specialize (E2 x Hx).
    simpl in E2. unfold writes_char in E2. apply Is_true_true_1, negb_true_iff in Hn.
    unfold comma in *. rewrite Hn, orb_false_r in E2. exact E2.
Qed.

Lemma write_all_frame p ws : forall w old, files w !! p = Some (Utf8 old) ->
  (exists t, fst (write_all p ws w) = set_files (<[p := Utf8 t]> (files w)) w) /\
  snd (write_all p ws w) <> Pending.
Proof.
  induction ws as [|[t|] ws IH]; intros w old Hp; cbn [write_all].
  - unfold ret. split; [|done]. exists old. by rewrite insert_id, set_files_files.
  - unfold bind, fwrite. destruct (existsb is_surrogate t).
    + split; [|done]. exists old. by rewrite insert_id, set_files_files.
    + rewrite Hp.
      destruct (IH (set_files (<[p:=Utf8 (old ++ write_newlines t)]> (files w)) w)
                  (old ++ write_newlines t)) as [[t' Ht'] Hn].
      { rewrite files_set_files. apply lookup_insert_eq. }
      split; [|exact Hn]. exists t'.
      rewrite Ht', set_files_twice, files_set_files, insert_insert_eq. reflexivity.
  - unfold raise. split; [|done]. exists old. by rewrite insert_id, set_files_files.
Qed.

Lemma save_frame (disks : list record) (p : text) (w : world) :
  snd (save_storage_info disks p w) = Ok tt /\
  (exists t, fst (save_storage_info disks p w) = set_files (<[p := Utf8 t]> (files w)) w \/
             fst (save_storage_info disks p w) = w) /\
  (p ∈ readonly w \/ p ∈ dirs w -> save_storage_info disks p w = (w, Ok tt)).
Proof.
  unfold save_storage_info, try_except, bind, open_w, ret.
  destruct (bool_decide (p ∈ readonly w) || bool_decide (p ∈ dirs w)) eqn:Eo.
  - split; [done|]. split; [exists []; by right|]. done.
  - set (w1 := set_files (<[p:=Utf8 []]> (files w)) w).
    destruct (write_all_frame p (report_writes 1 disks) w1 [])
      as [[t Ht] Hn]; [apply lookup_insert_eq|].
    assert (Hw : fst (write_all p (report_writes 1 disks) w1) =
                 set_files (<[p := Utf8 t]> (files w)) w).
    { rewrite Ht. unfold w1. by rewrite set_files_twice, files_set_files, insert_insert_eq. }
    split; [|split].
    + destruct (write_all p (report_writes 1 disks) w1) as [w' [[]| |]]; done.
    + exists t. left.
      destruct (write_all p (report_writes 1 disks) w1) as [w' [[]| |]]; done.
    + intros [H|H]; apply orb_false_iff in Eo as [E1 E2].
      * rewrite bool_decide_eq_true_2 in E1 by done. discriminate.
      * rewrite bool_decide_eq_true_2 in E2 by done. discriminate.
Qed.

(** [save_storage_info] never raises: whatever happens, it returns normally,
    and at most the file at the given path is changed (created or rewritten);
    when the path cannot be opened for writing, nothing changes at all. *)
Theorem save_storage_info_frame (disks : list record) (p : text) (w : world) :
  snd (save_storage_info disks p w) = Ok tt /\
  (exists t, fst (save_storage_info disks p w) = set_files (<[p := Utf8 t]> (files w)) w \/
             fst (save_storage_info disks p w) = w) /\
  (p ∈ readonly w \/ p ∈ dirs w -> save_storage_info disks p w = (w, Ok tt)).
Proof. exact (save_frame disks p w). Qed.

Lemma report_writes_app idx ds1 ds2 :
  report_writes idx (ds1 ++ ds2) = report_writes idx ds1 ++ report_writes (idx + length ds1) ds2.
Proof.
  revert idx. induction ds1 as [|d ds1 IH]; intros idx; cbn [app report_writes length].
  - by rewrite Nat.add_0_r.
  - rewrite IH, app_assoc. by rewrite Nat.add_succ_r.
Qed.

Lemma write_all_app p ts rest w old : files w !! p = Some (Utf8 old) ->
  existsb is_surrogate (concat ts) = false ->
  write_all p (map Some ts ++ rest) w =
  write_all p rest (set_files (<[p := Utf8 (old ++ write_newlines (concat ts))]> (files w)) w).
Proof.
  revert w old. induction ts as [|t ts IH]; intros w old Hp Hs.
  - cbn [map app concat]. by rewrite app_nil_r, insert_id, set_files_files.
  - cbn [map app write_all concat] in *. rewrite existsb_app in Hs.
    apply orb_false_iff in Hs as [Hs1 Hs2].
    unfold bind, fwrite. rewrite Hs1, Hp.
    rewrite (IH _ (old ++ write_newlines t)) by first [done | rewrite files_set_files; apply lookup_insert_eq].
    rewrite set_files_twice, files_set_files, insert_insert_eq.
    by rewrite write_newlines_app, app_assoc.
Qed.

(** [save_storage_info] writes the records in order; when a record lacks the
    key "Model", the KeyError is caught after the header of that record was
    written. Provided every key lookup of the earlier records succeeds (their
    lines are [ts]) and those lines hold no lone surrogate, the file holds
    exactly the lines of the earlier records and the header of that record;
    the remaining records are never written. *)
Theorem save_stops_at_missing_key (ds1 : list record) (d : record) (ds2 : list record)
  (p : text) (w : world) (ts : list text) :
  report_writes 1 ds1 = map Some ts -> existsb is_surrogate (concat ts) = false ->
  dict_get d L_MODEL = None ->
  p ∉ readonly w -> p ∉ dirs w ->
  save_storage_info (ds1 ++ d :: ds2) p w =
  (set_files (<[p := Utf8 (write_newlines (concat ts ++ hdr (S (length ds1))))]> (files w)) w,
   Ok tt).
Proof.
  intros Hts Hsur Hd Hr Hdir.
  unfold save_storage_info, try_except, bind, open_w.
  rewrite (bool_decide_eq_false_2 (p ∈ readonly w)), (bool_decide_eq_false_2 (p ∈ dirs w))
    by assumption. cbn [orb].
  rewrite report_writes_app, Hts.
  rewrite (write_all_app p ts _ _ []).
  2: { rewrite files_set_files. apply lookup_insert_eq. }
  2: { exact Hsur. }
  rewrite set_files_twice, files_set_files, insert_insert_eq. cbn [app].
  cbn [report_writes]. unfold disk_block_writes. cbn [map app]. rewrite Hd.
  cbn [write_all]. unfold bind, fwrite.
  assert (Hh : existsb is_surrogate (u_disk ++ u " " ++ dec (1 + length ds1) ++ [colon; nl]) = false).
  { rewrite !existsb_app. pose proof (ok_text_split _ (ok_dec (1 + length ds1))) as [Hs _].
    rewrite Hs. reflexivity. }
  rewrite Hh. cbn [files set_files]. rewrite lookup_insert_eq. unfold raise, ret.
  rewrite ?set_files_twice, ?files_set_files, ?insert_insert_eq, ?write_newlines_app. unfold hdr. by rewrite !write_newlines_app.
Qed.

Lemma get_storage_info_result (name : text) (w : world) :
  get_storage_info name w =
  (w, Ok (match files w !! join (log_folder (base w)) name with
          | Some (Utf8 t) => Some (parse_storage_info (read_newlines t))
          | _ => None
          end)).
Proof.
  unfold get_storage_info, path_exists, open_r, fread; unfold_monad. cbv beta iota zeta.
  set (p := join (log_folder (base w)) name).
  destruct (files w !! p) as [[t|]|] eqn:E.
  - repeat first [ rewrite E
                   | rewrite (bool_decide_eq_true_2 (is_Some (Some (Utf8 t)))) by done
                   | progress cbn [orb negb] | progress cbv beta iota zeta ].
    reflexivity.
  - repeat first [ rewrite E
                   | rewrite (bool_decide_eq_true_2 (is_Some (Some NotUtf8))) by done
                   | progress cbn [orb negb] | progress cbv beta iota zeta ].
    reflexivity.
  - rewrite (bool_decide_eq_false_2 (is_Some None)) by (intros [? ?]; discriminate).
    cbn [orb negb]. destruct (bool_decide (p ∈ dirs w)); cbv beta iota; [|reflexivity].
    repeat first [ rewrite E
                   | rewrite (bool_decide_eq_false_2 (is_Some None)) by (intros [? ?]; discriminate)
                   | progress cbn [orb negb] | progress cbv beta iota zeta ].
    reflexivity.
Qed.

Lemma m_disk_info_head s c s' : In (c, s') (m noflags DISK_INFO_PATTERN s) -> In 0x30C7 s.
Proof.
  intros H. unfold DISK_INFO_PATTERN, seq_re in H. cbn [fold_right] in H.
  apply in_m_cat in H as (c1 & s1 & _ & H1 & _).
  rewrite m_lits in H1. destruct s as [|x s]; [done|].
  cbn in H1. destruct (x =? 0x30C7) eqn:E; [apply N.eqb_eq in E; subst; by left|].
  done.
Qed.

Lemma search_no_disk s : ~ In 0x30C7 s -> search noflags DISK_INFO_PATTERN s = None.
Proof.
  induction s as [|x s IH]; intros Hs; cbn [search].
  - destruct (m noflags DISK_INFO_PATTERN []) as [|[c s'] l] eqn:E; [done|].
    exfalso. apply Hs. apply (m_disk_info_head [] c s'). rewrite E. by left.
  - destruct (m noflags DISK_INFO_PATTERN (x :: s)) as [|[c s'] l] eqn:E.
    + apply IH. intros H. apply Hs. by right.
    + exfalso. apply Hs. apply (m_disk_info_head _ c s'). rewrite E. by left.
Qed.

Lemma read_newlines_keeps c t : In c (read_newlines t) -> c = nl \/ In c t.
Proof.
  induction t as [t IH] using (induction_ltof1 _ (@length N)). unfold ltof in IH.
  destruct t as [|a t]; [done|]. simpl.
  destruct (a =? cr) eqn:Ea.
  - destruct t as [|d t'].
    + intros [<-|[]]. by left.
    + destruct (d =? nl).
      * intros [<-|H]; [by left|]. destruct (IH t' ltac:(simpl; lia) H) as [H'|H']; [by left|].
        right. by right; right.
      * intros [<-|H]; [by left|]. destruct (IH (d :: t') ltac:(simpl; lia) H) as [H'|H']; [by left|].
        right. by right.
  - intros [<-|H]; [by right; left|]. destruct (IH t ltac:(simpl; lia) H) as [H'|H']; [by left|].
    right. by right.
Qed.

Lemma parse_no_disk t : ~ In 0x30C7 t -> parse_storage_info (read_newlines t) = [].
Proof.
  intros Ht. unfold parse_storage_info, findall.
  cbn [findall_aux].
  rewrite search_no_disk; [reflexivity|].
  intros H. destruct (read_newlines_keeps _ _ H) as [E|E]; [discriminate E | by apply Ht].
Qed.

Lemma split_nl_no_nl t l : In l (split_nl t) -> ~ In nl l.
Proof.
  revert l. induction t as [|c t IH]; intros l; cbn [split_nl].
  - intros [<-|[]] [].
  - destruct (c =? nl) eqn:Ec.
    + intros [<-|H]; [intros []|]. by apply IH.
    + destruct (split_nl t) as [|l0 ls] eqn:Es.
      * by apply split_nl_ne in Es.
      * intros [<-|H].
        -- intros [E|E]; [subst c; by rewrite N.eqb_refl in Ec|].
           apply (IH l0); [by left|done].
        -- apply IH. by right.
Qed.

Lemma split_colon_incl t k v : split_colon t = (k, v) -> incl k t /\ incl v t.
Proof.
  revert k v. induction t as [|c t IH]; intros k v; cbn [split_colon].
  - intros [= <- <-]. split; intros ? [].
  - destruct (c =? colon).
    + intros [= <- <-]. split; [intros ? []|]. intros x Hx. by right.
    + destruct (split_colon t) as [k0 v0]. intros [= <- <-].
      destruct (IH k0 v0 eq_refl) as [Hk Hv]. split.
      * intros x [<-|Hx]; [by left|]. right. by apply Hk.
      * intros x Hx. right. by apply Hv.
Qed.

Lemma dict_set_in d k v k' v' : In (k', v') (dict_set d k v) -> In (k', v') d \/ (k', v') = (k, v).
Proof.
  induction d as [|[k0 v0] d IH]; cbn [dict_set].
  - intros [E|[]]. by right.
  - destruct (decide (k = k0)) as [->|Hne].
    + intros [E|H]; [by right|]. left. by right.
    + intros [E|H]; [left; by left|]. destruct (IH H) as [H'|H']; [left; by right|by right].
Qed.

Lemma dict_set_keys d k v x : In x (map fst (dict_set d k v)) -> In x (map fst d) \/ x = k.
Proof.
  intros Hx. apply in_map_iff in Hx as ([x' v'] & <- & Hin).
  destruct (dict_set_in _ _ _ _ _ Hin) as [H|[= -> ->]]; [|by right].
  left. apply in_map_iff. by exists (x', v').
Qed.

Lemma dict_set_nodup d k v : List.NoDup (map fst d) -> List.NoDup (map fst (dict_set d k v)).
Proof.
  induction d as [|[k0 v0] d IH]; cbn [dict_set map fst].
  - intros _. cbn. apply List.NoDup_cons; [intros []|apply List.NoDup_nil].
  - intros Hnd. inversion Hnd as [|? ? Hk0 Hnd']; subst.
    destruct (decide (k = k0)) as [->|Hne]; cbn [map fst]; [done|].
    constructor; [|by apply IH].
    intros H. destruct (dict_set_keys _ _ _ _ H) as [H'|H']; [done|by subst].
Qed.

Lemma parse_line_inv d line : ~ In nl line ->
  List.NoDup (map fst d) -> Forall clean_entry d ->
  List.NoDup (map fst (parse_line d line)) /\ Forall clean_entry (parse_line d line).
Proof.
  intros Hl Hnd Hc. unfold parse_line.
  destruct (existsb _ line); [|done].
  destruct (split_colon (strip line)) as [key value] eqn:Es.
  destruct (starts_with u_disk (strip key)) eqn:Ed; [done|].
  split; [by apply dict_set_nodup|].
  apply List.Forall_forall. intros [k v] Hin.
  destruct (dict_set_in _ _ _ _ _ Hin) as [H|[= -> ->]].
  - rewrite List.Forall_forall in Hc. by apply Hc.
  - destruct (split_colon_incl _ _ _ Es) as [Hk Hv].
    unfold clean_entry; cbn [fst snd].
    split; [apply strip_idem|]. split; [apply strip_idem|]. split; [done|].
    split; intros H.
    + apply Hl, strip_incl, Hk, strip_incl, H.
    + apply Hl, strip_incl, Hv, strip_incl, H.
Qed.

Lemma parse_block_inv disk :
  List.NoDup (map fst (parse_block disk)) /\ Forall clean_entry (parse_block disk).
Proof.
  rewrite parse_block_lines.
  assert (G : forall ls d, Forall (fun l => ~ In nl l) ls ->
            List.NoDup (map fst d) -> Forall clean_entry d ->
            List.NoDup (map fst (fold_left parse_line ls d)) /\ Forall clean_entry (fold_left parse_line ls d)).
  { induction ls as [|l ls IH]; intros d Hls Hnd Hc; cbn [fold_left]; [done|].
    inversion Hls; subst. destruct (parse_line_inv d l) as [Ha Hb]; try done.
    by apply IH. }
  apply G; [|constructor|constructor].
  apply List.Forall_forall. intros l Hl. by apply (split_nl_no_nl (strip disk)).
Qed.

(** Every record read back by the persisted-format parser of
    [get_storage_info] has distinct keys, and each key and value is stripped,
    on one line, and no key starts with "ディスク". *)
Theorem stored_records_clean (content : text) (d : record) :
  In d (parse_storage_info content) ->
  List.NoDup (map fst d) /\
  Forall (fun '(k, v) => strip k = k /\ strip v = v /\ starts_with u_disk k = false /\
                         ~ In nl k /\ ~ In nl v) d.
Proof.
  unfold parse_storage_info. intros H. apply in_map_iff in H as ([c disk] & <- & _).
  destruct (parse_block_inv disk) as [H1 H2]. split; [done|].
  eapply Forall_impl; [exact H2|]. intros [k v] Hc. exact Hc.
Qed.

Lemma bind_ok_inv {A B} (c : M A) (k : A -> M B) w w' b :
  bind c k w = (w', Ok b) -> exists w1 a, c w = (w1, Ok a) /\ k a w1 = (w', Ok b).
Proof.
  unfold bind. destruct (c w) as [w1 [a| |]]; [eauto|discriminate|discriminate].
Qed.

Lemma try_ok_inv {A} (c : M A) (h : exn -> M A) w w' a :
  try_except c h w = (w', Ok a) ->
  c w = (w', Ok a) \/ exists w1 e, c w = (w1, Raise e) /\ h e w1 = (w', Ok a).
Proof.
  unfold try_except. destruct (c w) as [w1 [a'| e|]]; [by left|eauto|by left].
Qed.

(** When DiskInfo32.exe exists but the log folder cannot be made (a regular
    file sits at its path, or it is missing and cannot be created), the
    OSError of [os.makedirs] escapes [get_CrystalDiskInfo_log]: the call
    raises before the tool is launched, and nothing is changed. *)
Theorem log_folder_failure_raises (fuel : nat) (w : world) :
  (is_Some (files w !! executable_path (base w)) \/ executable_path (base w) ∈ dirs w) ->
  (is_Some (files w !! log_folder (base w)) \/
   ((log_folder (base w) ∉ dirs w) /\ log_folder (base w) ∈ readonly w)) ->
  get_CrystalDiskInfo_log fuel w = (w, Raise OSError).
Proof.
  intros Hex Hlf.
  assert (Hb : bool_decide (is_Some (files w !! executable_path (base w))) ||
               bool_decide (executable_path (base w) ∈ dirs w) = true).
  { destruct Hex as [E|E]; apply orb_true_iff; [left|right]; by apply bool_decide_eq_true_2. }
  assert (Hm : bool_decide (is_Some (files w !! log_folder (base w))) ||
               (negb (bool_decide (log_folder (base w) ∈ dirs w)) &&
                bool_decide (log_folder (base w) ∈ readonly w)) = true).
  { apply orb_true_iff. destruct Hlf as [E|[E1 E2]]; [left; by apply bool_decide_eq_true_2|].
    right. apply andb_true_iff. split.
    - apply negb_true_iff. by apply bool_decide_eq_false_2.
    - by apply bool_decide_eq_true_2. }
  unfold get_CrystalDiskInfo_log, collect_raw_log, path_exists, makedirs; unfold_monad.
  cbv beta iota zeta. rewrite Hb. cbn [negb]. rewrite Hm. reflexivity.
Qed.

Lemma keeps_same {A} (c : M A) : (forall w, exists r, c w = (w, r)) -> keeps c.
Proof. intros H w. destruct (H w) as [r ->]. cbn [fst]. auto. Qed.

Lemma is_Some_insert (m : gmap text fcontent) p q v : is_Some (m !! q) -> is_Some (<[p := v]> m !! q).
Proof.
  intros Hq. destruct (decide (p = q)) as [->|Hne].
  - rewrite lookup_insert_eq. by eexists.
  - by rewrite lookup_insert_ne.
Qed.

Lemma keeps_insert {A} (c : M A) :
  (forall w, (exists r, c w = (w, r)) \/
             exists p v r, c w = (set_files (<[p := v]> (files w)) w, r)) -> keeps c.
Proof.
  intros H w. destruct (H w) as [[r ->]|(p & v & r & ->)]; cbn [fst]; [auto|].
  split; [done|]. split; [done|]. intros q Hq. rewrite files_set_files. by apply is_Some_insert.
Qed.

Lemma ret_keeps {A} (a : A) : keeps (ret a).
Proof. apply keeps_same. intros w. by eexists. Qed.

Lemma bind_keeps {A B} (c : M A) (k : A -> M B) :
  keeps c -> (forall a, keeps (k a)) -> keeps (bind c k).
Proof.
  intros Hc Hk w. unfold bind. destruct (Hc w) as (Hb & Hu & Hf).
  destruct (c w) as [w1 [a| e|]]; cbn [fst] in *; [|auto|auto].
  destruct (Hk a w1) as (Hb' & Hu' & Hf'). split; [congruence|]. split; [congruence|]. auto.
Qed.

Lemma try_keeps {A} (c : M A) (h : exn -> M A) :
  keeps c -> (forall e, keeps (h e)) -> keeps (try_except c h).
Proof.
  intros Hc Hh w. unfold try_except. destruct (Hc w) as (Hb & Hu & Hf).
  destruct (c w) as [w1 [a| e|]]; cbn [fst] in *; [auto| |auto].
  destruct (Hh e w1) as (Hb' & Hu' & Hf'). split; [congruence|]. split; [congruence|]. auto.
Qed.

Lemma get_world_keeps : keeps get_world.
Proof. apply keeps_same. intros w. by eexists. Qed.

Lemma path_exists_keeps p : keeps (path_exists p).
Proof. apply keeps_same. intros w. by eexists. Qed.

Lemma size_is_zero_keeps p : keeps (size_is_zero p).
Proof.
  apply keeps_same. intros w. unfold size_is_zero.
  destruct (files w !! p) as [[[|]|]|]; [by eexists..|]. destruct (bool_decide _); by eexists.
Qed.

Lemma makedirs_keeps p : keeps (makedirs p).
Proof.
  intros w. unfold makedirs. destruct (_ || _); cbn [fst]; [auto|].
  split; [done|]. split; [done|]. auto.
Qed.

Lemma time_now_keeps : keeps time_now.
Proof. intros w. cbn. auto. Qed.

Lemma process_iter_keeps : keeps process_iter.
Proof. intros w. cbn. auto. Qed.

Lemma sleep_keeps us : keeps (sleep us).
Proof. intros w. cbn. auto. Qed.

Lemma open_w_keeps p : keeps (open_w p).
Proof.
  apply keeps_insert. intros w. unfold open_w. destruct (_ || _); [left; by eexists|].
  right. by do 3 eexists.
Qed.

Lemma fwrite_keeps p t : keeps (fwrite p t).
Proof.
  apply keeps_insert. intros w. unfold fwrite. destruct (existsb _ _); [left; by eexists|].
  destruct (files w !! p) as [[|]|]; [right; by do 3 eexists|left; by eexists|left; by eexists].
Qed.

Lemma open_r_keeps p : keeps (open_r p).
Proof. apply keeps_same. intros w. unfold open_r. destruct (bool_decide _); by eexists. Qed.

Lemma fread_keeps p : keeps (fread p).
Proof. apply keeps_same. intros w. unfold fread. destruct (files w !! p) as [[|]|]; by eexists. Qed.

Lemma raise_keeps {A} e : keeps (@raise A e).
Proof. apply keeps_same. intros w. by eexists. Qed.

Lemma shell_execute_keeps file params : keeps (shell_execute file params).
Proof.
  intros w. unfold shell_execute. cbv zeta.
  destruct (32 <? shell_result w)%Z; [destruct (tool_output w)|]; cbn [fst];
    (split; [done|]); (split; [done|]); intros q Hq; cbn [files set_counters set_files] in *;
    try done. by apply is_Some_insert.
Qed.

Ltac keeps_auto :=
  repeat first [ apply bind_keeps | apply try_keeps | apply ret_keeps | apply get_world_keeps
               | apply path_exists_keeps | apply size_is_zero_keeps | apply makedirs_keeps
               | apply time_now_keeps | apply process_iter_keeps | apply sleep_keeps
               | apply open_w_keeps | apply fwrite_keeps | apply open_r_keeps | apply fread_keeps
               | apply raise_keeps | apply shell_execute_keeps
               | match goal with H : _ |- keeps _ => apply H end
               | match goal with |- forall _, keeps _ => intros ? end
               | match goal with |- keeps (if ?b then _ else _) => destruct b end
               | match goal with |- keeps (match ?x with _ => _ end) => destruct x end ].

Lemma wait_loop_keeps fuel st : keeps (wait_loop fuel st).
Proof.
  induction fuel as [|f IH]; cbn [wait_loop].
  - apply keeps_same. intros w. by eexists.
  - keeps_auto.
Qed.

Lemma write_all_keeps p ws : keeps (write_all p ws).
Proof. induction ws as [|[t|] ws IH]; cbn [write_all]; keeps_auto. Qed.

Lemma collect_keeps fuel : keeps (collect_raw_log fuel).
Proof.
  pose proof wait_loop_keeps as Hw.
  unfold collect_raw_log, run_CrystalDiskInfo, copy_log. keeps_auto.
Qed.

Lemma save_keeps ds p : keeps (save_storage_info ds p).
Proof. pose proof write_all_keeps as Hw. unfold save_storage_info. keeps_auto. Qed.

Lemma run_ok_inv fuel w w' b :
  get_CrystalDiskInfo_log fuel w = (w', Ok b) ->
  exists w1 copied, collect_raw_log fuel w = (w1, Ok copied) /\
    match copied with
    | None => w' = w1 /\ b = false
    | Some content =>
        store_report (log_file_default (base w)) (storage_info_log (base w) (now_stamp w))
          content w1 = (w', Ok b)
    end.
Proof.
  unfold get_CrystalDiskInfo_log. intros H.
  apply bind_ok_inv in H as (w0 & a0 & H0 & H). injection H0 as <- <-.
  apply bind_ok_inv in H as (w1 & copied & H1 & H).
  exists w1, copied. split; [done|]. destruct copied; [done|]. by injection H as -> <-.
Qed.

Lemma store_report_true raw info content w w' b :
  store_report raw info content w = (w', Ok b) -> b = true.
Proof.
  unfold store_report. intros H.
  apply bind_ok_inv in H as (w1 & a1 & _ & H).
  apply bind_ok_inv in H as (w2 & a2 & _ & H). by injection H as _ <-.
Qed.

(** A run of [get_CrystalDiskInfo_log] that returns False deletes no file. *)
Theorem failed_run_deletes_no_file (fuel : nat) (w w' : world) (p : text) :
  get_CrystalDiskInfo_log fuel w = (w', Ok false) ->
  is_Some (files w !! p) -> is_Some (files w' !! p).
Proof.
  intros H Hp. destruct (run_ok_inv _ _ _ _ H) as (w1 & [content|] & Hc & H').
  - apply store_report_true in H'. discriminate.
  - destruct H' as [-> _]. destruct (collect_keeps fuel w) as (_ & _ & Hf).
    rewrite Hc in Hf. exact (Hf p Hp).
Qed.

(** A run of [get_CrystalDiskInfo_log] that returns True leaves no raw log
    DiskInfo.txt behind, unless removing it fails. *)
Theorem successful_run_removes_raw_log (fuel : nat) (w w' : world) :
  get_CrystalDiskInfo_log fuel w = (w', Ok true) ->
  log_file_default (base w) ∉ undeletable w ->
  files w' !! log_file_default (base w) = None.
Proof.
  intros H Hu. destruct (run_ok_inv _ _ _ _ H) as (w1 & [content|] & Hc & H'); [|by destruct H'].
  destruct (collect_keeps fuel w) as (_ & Hu1 & _). rewrite Hc in Hu1. cbn [fst] in Hu1.
  unfold store_report in H'.
  apply bind_ok_inv in H' as (w2 & a2 & H2 & H').
  assert (Hu2 : undeletable w2 = undeletable w1).
  { destruct (get_storage_log content) as [|d ds].
    - by injection H2 as <- _.
    - destruct (save_keeps (d :: ds) (storage_info_log (base w) (now_stamp w)) w1) as (_ & E & _).
      by rewrite H2 in E. }
  apply bind_ok_inv in H' as (w3 & a3 & H3 & H'). injection H' as <-.
  apply try_ok_inv in H3 as [H3|(w4 & e & H4 & H3)].
  - unfold remove in H3.
    destruct (_ || _); [discriminate|]. injection H3 as <- _.
    cbn [files set_files]. apply lookup_delete_eq.
  - unfold remove in H4. unfold ret in H3. injection H3 as <- _.
    destruct (bool_decide (log_file_default (base w) ∈ undeletable w2)) eqn:E1.
    + apply bool_decide_eq_true_1 in E1. rewrite Hu2, Hu1 in E1. contradiction.
    + destruct (files w2 !! log_file_default (base w)) eqn:E2; [|by injection H4 as <- _].
      discriminate.
Qed.

(** The copy of lines 273-280 copies a UTF-8 raw log to the health log, with
    the line endings translated on reading and on writing, and returns the text
    read. *)
Theorem copy_log_utf8 (src dst t : text) (w : world) :
  files w !! src = Some (Utf8 t) -> src <> dst ->
  dst ∉ readonly w -> dst ∉ dirs w ->
  existsb is_surrogate (read_newlines t) = false ->
  copy_log src dst w =
    (set_files (<[dst := Utf8 (write_newlines (read_newlines t))]> (files w)) w,
     Ok (Some (read_newlines t))).
Proof.
  intros Hs Hne Hr Hd Hsur.
  unfold copy_log, try_except, bind, open_r, open_w, fread, fwrite, ret.
  rewrite Hs, bool_decide_eq_true_2 by done.
  rewrite bool_decide_eq_false_2 by done. rewrite bool_decide_eq_false_2 by done.
  cbn [orb files set_files]. rewrite lookup_insert_ne by done. rewrite Hs, Hsur.
  rewrite files_set_files, lookup_insert_eq. cbn [app]. by rewrite set_files_twice, insert_insert_eq.
Qed.

(** When the raw log is not UTF-8, the copy of lines 273-280 fails after
    opening the health log for writing: an empty health log is left behind. *)
Theorem copy_log_not_utf8 (src dst : text) (w : world) :
  files w !! src = Some NotUtf8 -> src <> dst ->
  dst ∉ readonly w -> dst ∉ dirs w ->
  copy_log src dst w = (set_files (<[dst := Utf8 []]> (files w)) w, Ok None).
Proof.
  intros Hs Hne Hr Hd.
  unfold copy_log, try_except, bind, open_r, open_w, fread, fwrite, ret.
  rewrite Hs, bool_decide_eq_true_2 by done.
  rewrite bool_decide_eq_false_2 by done. rewrite bool_decide_eq_false_2 by done.
  cbn [orb files set_files]. rewrite lookup_insert_ne by done. by rewrite Hs.
Qed.

Lemma copy_log_some_inv (src dst c : text) (w w' : world) :
  copy_log src dst w = (w', Ok (Some c)) -> src <> dst ->
  exists t, files w !! src = Some (Utf8 t) /\ c = read_newlines t /\
            files w' = <[dst := Utf8 (write_newlines c)]> (files w).
Proof.
  intros H Hne. unfold copy_log in H.
  apply try_ok_inv in H as [H|(w1 & e & _ & H)]; [|discriminate H].
  apply bind_ok_inv in H as (w1 & a1 & H1 & H). unfold open_r in H1.
  destruct (bool_decide _); [injection H1 as <- _|discriminate H1].
  apply bind_ok_inv in H as (w2 & a2 & H2 & H). unfold open_w in H2.
  destruct (_ || _); [discriminate H2|injection H2 as <- _].
  apply bind_ok_inv in H as (w3 & c3 & H3 & H). unfold fread in H3.
  cbn [files set_files] in H3. rewrite lookup_insert_ne in H3 by done.
  destruct (files w !! src) as [[t|]|] eqn:Es; try discriminate H3.
  injection H3 as <- <-. exists t. split; [done|].
  apply bind_ok_inv in H as (w4 & a4 & H4 & H). unfold ret in H. injection H as <- <-.
  split; [done|]. unfold fwrite in H4. destruct (existsb _ _); [discriminate H4|].
  cbn [files set_files] in H4. rewrite lookup_insert_eq in H4. injection H4 as <- _.
  cbn [files set_files app]. by rewrite insert_insert_eq.
Qed.

Lemma dirname_executable_path (b : text) : dirname (executable_path b) = crystal_dir b.
Proof.
  unfold executable_path, crystal_dir.
  rewrite (join_app_sep b _ _ 111 (rev (removelast (u "CrystalDiskInfo")))) by reflexivity.
  unfold dirname. rewrite !rev_app_distr, <- app_assoc. cbn [app rev].
  rewrite drop_while_app by reflexivity.
  change (drop_while is_sep (92 :: ?r)) with (drop_while is_sep r).
  assert (Hd : drop_while is_sep (rev (join b (u "CrystalDiskInfo"))) =
               rev (join b (u "CrystalDiskInfo"))).
  { destruct (join_prefix b) as [p Hp]. rewrite Hp, rev_app_distr. reflexivity. }
  by rewrite Hd, rev_involutive.
Qed.

Lemma raw_log_not_health_log (b stamp : text) :
  log_file_default b <> storage_health_log b stamp.
Proof.
  unfold log_file_default, storage_health_log, crystal_dir, log_folder.
  rewrite (join_app_sep b _ _ 111 (rev (removelast (u "CrystalDiskInfo")))) by reflexivity.
  rewrite (join_app_sep b _ _ 103 [111; 108]) by reflexivity.
  destruct (join_prefix b) as [p Hp]. rewrite !Hp, <- !app_assoc.
  intros H. apply app_inv_head in H. discriminate H.
Qed.

Lemma info_log_not_health_log (b s1 s2 : text) :
  storage_info_log b s1 <> storage_health_log b s2.
Proof.
  unfold storage_info_log, storage_health_log. rewrite !log_folder_join.
  intros H. apply app_inv_head in H. discriminate H.
Qed.

Lemma wait_loop_files fuel st : forall w, files (fst (wait_loop fuel st w)) = files w.
Proof.
  induction fuel as [|f IH]; intros w; [done|]. cbn [wait_loop].
  unfold bind at 1, process_iter. cbv beta iota.
  destruct (negb _); [done|].
  unfold bind at 1, time_now. cbv beta iota.
  destruct (_ >? _)%Z; [done|].
  unfold bind, sleep. cbv beta iota. rewrite IH. done.
Qed.

Lemma run_true_inv exe params w w' :
  run_CrystalDiskInfo exe params w = (w', Ok true) ->
  (32 < shell_result w)%Z /\
  files w' = match tool_output w with
             | Some c => <[join (dirname exe) (u "DiskInfo.txt") := c]> (files w)
             | None => files w
             end.
Proof.
  unfold run_CrystalDiskInfo, try_except, bind, shell_execute, ret.
  destruct (32 <? shell_result w)%Z eqn:E1; [apply Z.ltb_lt in E1|apply Z.ltb_ge in E1];
  destruct (tool_output w) eqn:E2; destruct (shell_result w <=? 32)%Z eqn:E3;
  intros H; cbv beta iota in H.
  - apply Z.leb_le in E3; lia.
  - apply Z.leb_gt in E3. injection H as <-. split; [lia|reflexivity].
  - apply Z.leb_le in E3; lia.
  - apply Z.leb_gt in E3. injection H as <-. split; [lia|reflexivity].
  - discriminate H.
  - apply Z.leb_gt in E3; lia.
  - discriminate H.
  - apply Z.leb_gt in E3; lia.
Qed.

Lemma store_report_other raw info content w w' b p :
  store_report raw info content w = (w', Ok b) -> p <> raw -> p <> info ->
  files w' !! p = files w !! p.
Proof.
  intros H Hr Hi. unfold store_report in H.
  apply bind_ok_inv in H as (w2 & a2 & H2 & H).
  assert (E2 : files w2 !! p = files w !! p).
  { destruct (get_storage_log content) as [|d ds].
    - by injection H2 as <- _.
    - destruct (save_frame (d :: ds) info w) as (_ & [t [E|E]] & _);
        rewrite H2 in E; cbn [fst] in E; rewrite E; [|done].
      cbn [files set_files]. by rewrite lookup_insert_ne by done. }
  apply bind_ok_inv in H as (w3 & a3 & H3 & H). injection H as <- _.
  rewrite <- E2. unfold try_except, remove, ret in H3.
  destruct (_ || _); injection H3 as <- _; [done|].
  cbn [files set_files]. by rewrite lookup_delete_ne by done.
Qed.

Lemma collect_copies_tool_output fuel w w1 c t :
  collect_raw_log fuel w = (w1, Ok (Some c)) -> tool_output w = Some (Utf8 t) ->
  c = read_newlines t /\
  files w1 !! storage_health_log (base w) (now_stamp w) = Some (Utf8 (write_newlines c)).
Proof.
  intros H Ht. unfold collect_raw_log in H.
  apply bind_ok_inv in H as (w0 & a0 & H0 & H). injection H0 as <- <-. cbv beta zeta in H.
  apply bind_ok_inv in H as (w2 & ex & H2 & H). injection H2 as <- _.
  destruct ex; [|discriminate H]. cbn [negb] in H.
  apply bind_ok_inv in H as (w3 & a3 & H3 & H). unfold makedirs in H3.
  destruct (_ || _); [discriminate H3|injection H3 as <- _].
  apply bind_ok_inv in H as (w4 & launched & H4 & H).
  destruct launched; [|discriminate H]. cbn [negb] in H.
  apply run_true_inv in H4 as [_ Hf4]. cbn [tool_output set_dirs] in Hf4.
  rewrite Ht, dirname_executable_path in Hf4.
  apply bind_ok_inv in H as (w5 & st & H5 & H). injection H5 as <- _.
  apply bind_ok_inv in H as (w6 & fin & H6 & H).
  pose proof (wait_loop_files fuel st (set_counters (polls w4) (S (ticks w4)) (trace w4) w4)) as Hf6.
  rewrite H6 in Hf6. cbn [fst files set_counters] in Hf6.
  destruct fin; [|discriminate H]. cbn [negb] in H.
  apply bind_ok_inv in H as (w7 & ex & H7 & H). injection H7 as <- _.
  destruct ex; [|discriminate H]. cbn [negb] in H.
  apply bind_ok_inv in H as (w8 & em & H8 & H).
  assert (w8 = w6) as ->.
  { unfold size_is_zero in H8. destruct (files w6 !! _) as [[[|]|]|]; try by injection H8.
    destruct (bool_decide _); by injection H8. }
  destruct em; [discriminate H|].
  apply copy_log_some_inv in H as (t' & Hs & -> & Hf); [|apply raw_log_not_health_log].
  rewrite Hf6, Hf4 in Hs. cbn [files set_dirs] in Hs. unfold log_file_default in Hs.
  rewrite lookup_insert_eq in Hs. injection Hs as <-.
  split; [done|]. rewrite Hf. apply lookup_insert_eq.
Qed.

(** After a run of [get_CrystalDiskInfo_log] that returns True, the health
    log storage_health_log_<stamp>.txt holds the report the tool wrote, as
    read and written back in text mode. *)
Theorem successful_run_saves_tool_output (fuel : nat) (w w' : world) (t : text) :
  get_CrystalDiskInfo_log fuel w = (w', Ok true) -> tool_output w = Some (Utf8 t) ->
  files w' !! storage_health_log (base w) (now_stamp w) =
    Some (Utf8 (write_newlines (read_newlines t))).
Proof.
  intros H Ht. destruct (run_ok_inv _ _ _ _ H) as (w1 & [content|] & Hc & H'); [|by destruct H'].
  destruct (collect_copies_tool_output _ _ _ _ _ Hc Ht) as [-> Hh].
  rewrite (store_report_other _ _ _ _ _ _ _ H').
  - exact Hh.
  - intros E. symmetry in E. by apply raw_log_not_health_log in E.
  - intros E. symmetry in E. by apply info_log_not_health_log in E.
Qed.








(** [get_storage_info] never raises and changes nothing: it always returns
    normally, with the world unchanged; it returns None exactly when the path
    is not a UTF-8 regular file (missing, a directory, or not decodable). *)
Theorem get_storage_info_none_iff (name : text) (w : world) :
  fst (get_storage_info name w) = w /\
  (exists v, snd (get_storage_info name w) = Ok v) /\
  (snd (get_storage_info name w) = Ok None <->
   forall t, files w !! join (log_folder (base w)) name <> Some (Utf8 t)).
Proof.
  rewrite get_storage_info_result. cbn [fst snd]. split; [done|]. split; [by eexists|].
  destruct (files w !! join (log_folder (base w)) name) as [[t|]|]; split; try done.
  intros H. by destruct (H t).
Qed.

(** [get_storage_info] on a UTF-8 file without the character "デ" (no
    "ディスク" header) returns the empty list of records. *)
Theorem report_without_disk_marker (name t : text) (w : world) :
  files w !! join (log_folder (base w)) name = Some (Utf8 t) -> ~ In 0x30C7 t ->
  get_storage_info name w = (w, Ok (Some [])).
Proof.
  intros Hf Ht. rewrite get_storage_info_result, Hf, parse_no_disk by done. reflexivity.
Qed.

Lemma colonless_section_all_na_witness :
  ~ In colon (u "no fields here") /\
  disk_info (u "no fields here") = zip field_labels (repeat NA 7).
Proof.
  assert (H : ~ In colon (u "no fields here")).
  { intros H. vm_compute in H. repeat (destruct H as [H|H]; [discriminate H|]). exact H. }
  split; [exact H|]. exact (colonless_section_all_na _ H).
Defined.

Lemma counter_values_digits_witness :
  In (zip field_labels std_values) (get_storage_log (sample_log plain_hours_line)) /\
  In (L_HOURS, u "8760") (zip field_labels std_values) /\
  (u "8760" = NA \/ (u "8760" <> [] /\ forallb is_digit (u "8760") = true)).
Proof.
  assert (H1 : In (zip field_labels std_values) (get_storage_log (sample_log plain_hours_line)))
    by (vm_compute; left; reflexivity).
  assert (H2 : In (L_HOURS, u "8760") (zip field_labels std_values))
    by (vm_compute; right; right; right; left; reflexivity).
  split; [exact H1|]. split; [exact H2|].
  exact (counter_values_digits _ _ _ _ H1 H2 (or_introl eq_refl)).
Defined.

Lemma writes_value_chars_witness :
  In (zip field_labels std_values) (get_storage_log (sample_log plain_hours_line)) /\
  In (L_WRITES, u "1234") (zip field_labels std_values) /\
  (u "1234" = NA \/ forallb (fun c => is_digit c || (c =? 46)) (u "1234") = true).
Proof.
  assert (H1 : In (zip field_labels std_values) (get_storage_log (sample_log plain_hours_line)))
    by (vm_compute; left; reflexivity).
  assert (H2 : In (L_WRITES, u "1234") (zip field_labels std_values))
    by (vm_compute; do 5 right; left; reflexivity).
  split; [exact H1|]. split; [exact H2|].
  exact (writes_value_chars _ _ _ H1 H2).
Defined.

Lemma save_stops_at_missing_key_witness :
  let ds1 := get_storage_log (sample_log plain_hours_line) in
  let ts := map (fun o => default [] o) (report_writes 1 ds1) in
  let p := storage_info_log sample_base sample_stamp in
  let w := sample_world NotUtf8 ∅ in
  report_writes 1 ds1 = map Some ts /\ existsb is_surrogate (concat ts) = false /\
  dict_get [] L_MODEL = None /\ (p ∉ readonly w) /\ (p ∉ dirs w) /\
  save_storage_info (ds1 ++ [[]]) p w =
  (set_files (<[p := Utf8 (write_newlines (concat ts ++ hdr (S (length ds1))))]> (files w)) w,
   Ok tt).
Proof.
  intros ds1 ts p w.
  assert (H0 : report_writes 1 ds1 = map Some ts) by (vm_compute; reflexivity).
  assert (H1 : existsb is_surrogate (concat ts) = false) by (vm_compute; reflexivity).
  assert (H2 : dict_get [] L_MODEL = None) by reflexivity.
  assert (H3 : p ∉ readonly w) by apply not_elem_of_empty.
  assert (H4 : p ∉ dirs w) by apply not_elem_of_empty.
  split; [exact H0|]. split; [exact H1|]. split; [exact H2|]. split; [exact H3|]. split; [exact H4|].
  exact (save_stops_at_missing_key ds1 [] [] p w ts H0 H1 H2 H3 H4).
Defined.

Lemma report_without_disk_marker_witness :
  let w := set_files {[ join (log_folder sample_base) (u "r.txt") := Utf8 (u "empty") ]}
             (sample_world NotUtf8 ∅) in
  files w !! join (log_folder (base w)) (u "r.txt") = Some (Utf8 (u "empty")) /\
  ~ In 0x30C7 (u "empty") /\
  get_storage_info (u "r.txt") w = (w, Ok (Some [])).
Proof.
  intros w.
  assert (H1 : files w !! join (log_folder (base w)) (u "r.txt") = Some (Utf8 (u "empty")))
    by (vm_compute; reflexivity).
  assert (H2 : ~ In 0x30C7 (u "empty")).
  { intros H. vm_compute in H. repeat (destruct H as [H|H]; [discriminate H|]). exact H. }
  split; [exact H1|]. split; [exact H2|].
  exact (report_without_disk_marker _ _ _ H1 H2).
Defined.

Lemma stored_records_clean_witness :
  let d := zip field_labels std_values in
  In d (parse_storage_info (report_text 1 [d])) /\
  List.NoDup (map fst d) /\
  Forall (fun '(k, v) => strip k = k /\ strip v = v /\ starts_with u_disk k = false /\
                         ~ In nl k /\ ~ In nl v) d.
Proof.
  intros d.
  assert (H : In d (parse_storage_info (report_text 1 [d]))) by (vm_compute; left; reflexivity).
  split; [exact H|]. exact (stored_records_clean _ _ H).
Defined.

Lemma failed_run_deletes_no_file_witness :
  let w := sample_world NotUtf8 ∅ in
  get_CrystalDiskInfo_log 20 w = (fst (get_CrystalDiskInfo_log 20 w), Ok false) /\
  is_Some (files w !! executable_path sample_base) /\
  is_Some (files (fst (get_CrystalDiskInfo_log 20 w)) !! executable_path sample_base).
Proof.
  intros w.
  assert (H1 : get_CrystalDiskInfo_log 20 w = (fst (get_CrystalDiskInfo_log 20 w), Ok false))
    by (vm_compute; reflexivity).
  assert (H2 : is_Some (files w !! executable_path sample_base)) by (vm_compute; eexists; reflexivity).
  split; [exact H1|]. split; [exact H2|].
  exact (failed_run_deletes_no_file 20 w _ _ H1 H2).
Defined.

Lemma successful_run_removes_raw_log_witness :
  let w := sample_world (Utf8 (sample_log plain_hours_line)) ∅ in
  get_CrystalDiskInfo_log 20 w = (fst (get_CrystalDiskInfo_log 20 w), Ok true) /\
  (log_file_default (base w) ∉ undeletable w) /\
  files (fst (get_CrystalDiskInfo_log 20 w)) !! log_file_default (base w) = None.
Proof.
  intros w.
  assert (H1 : get_CrystalDiskInfo_log 20 w = (fst (get_CrystalDiskInfo_log 20 w), Ok true))
    by (vm_compute; reflexivity).
  assert (H2 : log_file_default (base w) ∉ undeletable w) by apply not_elem_of_empty.
  split; [exact H1|]. split; [exact H2|].
  exact (successful_run_removes_raw_log 20 w _ H1 H2).
Defined.

Lemma successful_run_saves_tool_output_witness :
  let w := sample_world (Utf8 (sample_log plain_hours_line)) ∅ in
  get_CrystalDiskInfo_log 20 w = (fst (get_CrystalDiskInfo_log 20 w), Ok true) /\
  tool_output w = Some (Utf8 (sample_log plain_hours_line)) /\
  files (fst (get_CrystalDiskInfo_log 20 w)) !! storage_health_log (base w) (now_stamp w) =
    Some (Utf8 (write_newlines (read_newlines (sample_log plain_hours_line)))).
Proof.
  intros w.
  assert (H1 : get_CrystalDiskInfo_log 20 w = (fst (get_CrystalDiskInfo_log 20 w), Ok true))
    by (vm_compute; reflexivity).
  assert (H2 : tool_output w = Some (Utf8 (sample_log plain_hours_line))) by reflexivity.
  split; [exact H1|]. split; [exact H2|].
  exact (successful_run_saves_tool_output 20 w _ _ H1 H2).
Defined.

Lemma copy_log_utf8_witness :
  let src := log_file_default sample_base in
  let dst := storage_health_log sample_base sample_stamp in
  let w := set_files {[ src := Utf8 (u "abc") ]} (sample_world NotUtf8 ∅) in
  files w !! src = Some (Utf8 (u "abc")) /\ src <> dst /\ (dst ∉ readonly w) /\ (dst ∉ dirs w) /\
  existsb is_surrogate (read_newlines (u "abc")) = false /\
  copy_log src dst w =
    (set_files (<[dst := Utf8 (write_newlines (read_newlines (u "abc")))]> (files w)) w,
     Ok (Some (read_newlines (u "abc")))).
Proof.
  intros src dst w.
  assert (H1 : files w !! src = Some (Utf8 (u "abc"))) by (vm_compute; reflexivity).
  assert (H2 : src <> dst) by apply raw_log_not_health_log.
  assert (H3 : dst ∉ readonly w) by apply not_elem_of_empty.
  assert (H4 : dst ∉ dirs w) by apply not_elem_of_empty.
  assert (H5 : existsb is_surrogate (read_newlines (u "abc")) = false) by reflexivity.
  split; [exact H1|]. split; [exact H2|]. split; [exact H3|]. split; [exact H4|].
  split; [exact H5|]. exact (copy_log_utf8 src dst _ w H1 H2 H3 H4 H5).
Defined.

Lemma copy_log_not_utf8_witness :
  let src := log_file_default sample_base in
  let dst := storage_health_log sample_base sample_stamp in
  let w := set_files {[ src := NotUtf8 ]} (sample_world NotUtf8 ∅) in
  files w !! src = Some NotUtf8 /\ src <> dst /\ (dst ∉ readonly w) /\ (dst ∉ dirs w) /\
  copy_log src dst w = (set_files (<[dst := Utf8 []]> (files w)) w, Ok None).
Proof.
  intros src dst w.
  assert (H1 : files w !! src = Some NotUtf8) by (vm_compute; reflexivity).
  assert (H2 : src <> dst) by apply raw_log_not_health_log.
  assert (H3 : dst ∉ readonly w) by apply not_elem_of_empty.
  assert (H4 : dst ∉ dirs w) by apply not_elem_of_empty.
  split; [exact H1|]. split; [exact H2|]. split; [exact H3|]. split; [exact H4|].
  exact (copy_log_not_utf8 src dst w H1 H2 H3 H4).
Defined.


Lemma log_folder_failure_raises_witness :
  let w := sample_world NotUtf8 {[ log_folder sample_base ]} in
  (is_Some (files w !! executable_path (base w)) \/ executable_path (base w) ∈ dirs w) /\
  (is_Some (files w !! log_folder (base w)) \/
   ((log_folder (base w) ∉ dirs w) /\ log_folder (base w) ∈ readonly w)) /\
  get_CrystalDiskInfo_log 20 w = (w, Raise OSError).
Proof.
  intros w.
  assert (H1 : is_Some (files w !! executable_path (base w)) \/ executable_path (base w) ∈ dirs w)
    by (left; vm_compute; eexists; reflexivity).
  assert (H2 : is_Some (files w !! log_folder (base w)) \/
               ((log_folder (base w) ∉ dirs w) /\ log_folder (base w) ∈ readonly w))
    by (right; split; [apply not_elem_of_empty | exact (proj2 (elem_of_singleton _ _) eq_refl)]).
  split; [exact H1|]. split; [exact H2|].
  exact (log_folder_failure_raises 20 w H1 H2).
Defined.
